(** * StarkNet key store and signature adapters

    A shallow embedding of [core/services/keystore/starknet.go]: the
    [starknet] key store (Get, GetAll, Create, Add, Delete, Import, Export,
    EnsureKey, getByID), the [keystoreAdapter] (Sign, Decode, Loopp) and the
    [StarknetLooppSigner] (Sign, Accounts).

    The Go methods mutate the key manager they embed and return
    [(value, error)] pairs; here every method is a function from the state
    before the call to its Go return values and the state after it.  The
    read/write lock taken at the head of each method orders concurrent
    callers and has no effect on a single call, so the embedding is the
    sequential body of each method. *)

From Stdlib Require Import ZArith List Lia.
From Stdlib Require Import Strings.Byte.
From stdpp Require Import gmap strings list fin_maps.

Open Scope Z_scope.

(** ** Byte slices and [math/big] integers *)

(** A Go [[]byte] is either [nil] or a (possibly empty) slice: the two are
    told apart by [hash == nil] in [StarknetLooppSigner.Sign]. *)
Definition slice (A : Type) : Type := option (list A).

Definition bytes : Type := slice byte.

Definition len {A} (b : slice A) : nat :=
  match b with
  | None => O
  | Some l => length l
  end.

Definition contents {A} (b : slice A) : list A :=
  match b with
  | None => []
  | Some l => l
  end.

(** [append(s, x)]: appending to a nil slice allocates. *)
Definition append {A} (s : slice A) (x : A) : slice A := Some (contents s ++ [x]).

Definition byte_to_Z (b : byte) : Z := Z.of_N (Byte.to_N b).

Definition byte_of_Z (z : Z) : byte :=
  match Byte.of_N (Z.to_N (z mod 256)) with
  | Some b => b
  | None => x00
  end.

Module big.

(** [new(big.Int).SetBytes(buf)]: [buf] read as a big-endian unsigned
    integer; a nil or empty slice gives zero. *)
Definition SetBytes_list (l : list byte) : Z :=
  fold_left (fun acc b => acc * 256 + byte_to_Z b) l 0.

Definition SetBytes (buf : bytes) : Z := SetBytes_list (contents buf).

(** The [n] low-order base-256 digits of [z], most significant first
    (what [FillBytes] writes into a buffer of [n] bytes). *)
Fixpoint FillBytes (n : nat) (z : Z) : list byte :=
  match n with
  | O => []
  | S n' => FillBytes n' (z / 256) ++ [byte_of_Z z]
  end.

(** Number of bytes of the absolute value: zero has none. *)
Definition byteLen (z : Z) : nat :=
  if Z.abs z =? 0 then O else S (Z.to_nat (Z.log2 (Z.abs z) / 8)).

(** [x.Bytes()]: the absolute value of [x] as a big-endian slice of
    minimal length; the slice is never nil, and is empty for zero. *)
Definition Bytes (x : Z) : bytes := Some (FillBytes (byteLen x) (Z.abs x)).

End big.


(** ** Errors *)

(** Go [error] values met in this file.  [ErrLocked] and
    [KeyNotFoundError] are the key store package's own; [Errorf] is
    [fmt.Errorf] without [%w], [Errorf_w msg e] is
    [fmt.Errorf(msg + ": %w", e)], [Wrap e msg] is [errors.Wrap(e, msg)].
    [EncodingError] and [MalformedSignature] are the two failures of the
    signature codec; [ExternalError] stands for an error raised by a
    collaborator (key generation, decryption, persistence, the curve). *)
Inductive error : Type :=
| ErrLocked
| KeyNotFoundError (ID KeyType : string)
| Errorf (msg : string)
| Errorf_w (msg : string) (err : error)
| Wrap (err : error) (msg : string)
| EncodingError
| MalformedSignature
| ExternalError (what : string).

#[global] Instance error_eq_dec : EqDecision error.
Proof. solve_decision. Defined.

(** [errors.Is(e, target)]: [target] occurs in the chain of causes of [e]. *)
Fixpoint Is (e target : error) : bool :=
  bool_decide (e = target) ||
  match e with
  | Errorf_w _ cause => Is cause target
  | Wrap cause _ => Is cause target
  | _ => false
  end.

(** [fmt.Errorf("key with ID %s already exists", id)] *)
Definition AlreadyExists (id : string) : error :=
  Errorf ("key with ID " +:+ id +:+ " already exists").

(** ** Keys and the key manager *)

(** Modelled from the spec: [starkkey.Key] (section 3): an identifier, a
    private scalar and a public point; [ID] and [ToPrivKey] are the two
    accessors the source calls. *)
Record Key : Type := mkKey {
  ID : string;
  ToPrivKey : Z;
  PublicKey : Z * Z
}.

(** [starkkey.Key{}] *)
Definition zeroKey : Key := mkKey "" 0 (0, 0).

Record ScryptParams : Type := mkScryptParams { N : Z; P : Z }.

(** Modelled from the spec: the [keyManager] the store embeds (section 6):
    the locked flag read by [isLocked()], the ring [keyRing.StarkNet], the
    key-derivation cost parameters and the logger. *)
Record keyManager : Type := mkKeyManager {
  isLocked : bool;
  keyRing : gmap string Key;
  scryptParams : ScryptParams;
  logger : list string
}.

(** The state a call runs in: the key manager, the number of reads made so
    far from the process's entropy source, and the log of invocations
    [(digest, private scalar)] of the curve signing primitive. *)
Record world : Type := mkWorld {
  km : keyManager;
  entropy : nat;
  curveCalls : list (Z * Z)
}.

(** Collaborators outside this file.  Key generation and encryption draw
    on the entropy source: their outcome is a function of the number of
    reads made before. *)
Class Collaborators : Type := {
  (** [starkkey.New()] *)
  starkkey_New : nat -> Key * option error;
  (** [starkkey.FromEncryptedJSON(keyJSON, password)] *)
  starkkey_FromEncryptedJSON : bytes -> string -> Key * option error;
  (** [starkkey.ToEncryptedJSON(key, password, scryptParams)] *)
  starkkey_ToEncryptedJSON : nat -> Key -> string -> ScryptParams -> bytes * option error;
  (** the persistence step of [safeAddKey] / [safeRemoveKey] *)
  km_save : gmap string Key -> option error;
  (** [caigo.Curve.Sign(hash, priv)] *)
  caigo_Curve_Sign : nat -> Z -> Z -> (Z * Z) * option error;
  (** byte width of a field element in the signature encoding *)
  maxPointByteLen : nat
}.

(** ** The state monad of a call *)

Definition M (A : Type) : Type := world -> A * world.

Definition ret {A} (a : A) : M A := fun w => (a, w).

Definition bind {A B} (m : M A) (f : A -> M B) : M B :=
  fun w => let (a, w') := m w in f a w'.

Notation "'let*' x := m 'in' k" := (bind m (fun x => k))
  (at level 10, x name, m at level 100, k at level 200).
Notation "'let*' ' p := m 'in' k" := (bind m (fun x => let 'p := x in k))
  (at level 10, p pattern, m at level 100, k at level 200).

Definition reads {A} (f : world -> A) : M A := fun w => (f w, w).

Definition set_keyRing (r : gmap string Key) : M unit := fun w =>
  (tt, mkWorld (mkKeyManager (isLocked (km w)) r (scryptParams (km w)) (logger (km w)))
               (entropy w) (curveCalls w)).

(** [ks.logger.Infof(msg)] *)
Definition Infof (msg : string) : M unit := fun w =>
  (tt, mkWorld (mkKeyManager (isLocked (km w)) (keyRing (km w)) (scryptParams (km w))
                             (logger (km w) ++ [msg]))
               (entropy w) (curveCalls w)).

(** One read of the entropy source: returns the count before the read. *)
Definition draw : M nat := fun w =>
  (entropy w, mkWorld (km w) (S (entropy w)) (curveCalls w)).

(** The ring of a state, and its locked flag. *)
Definition ring (w : world) : gmap string Key := keyRing (km w).
Definition locked (w : world) : bool := isLocked (km w).

(** Every key of the ring is stored under its own identifier. *)
Definition keyed (r : gmap string Key) : Prop :=
  map_Forall (fun id key => ID key = id) r.

(** ** Key manager and key package collaborators *)

Module keyManager_calls.
Section Calls.
Context `{Collaborators}.

(** Modelled from the spec: [keyManager.safeAddKey] (section 6: ring
    mutation plus any persistence side effect).  The source returns its
    error, and section 4.1 speaks of an insertion that fails: the ring with
    the key inserted is handed to the persistence step, and is kept only
    when that step succeeds. *)
Definition safeAddKey (key : Key) : M (option error) :=
  let* r := reads ring in
  match km_save (<[ID key := key]> r) with
  | Some e => ret (Some e)
  | None => let* _ := set_keyRing (<[ID key := key]> r) in ret None
  end.

(** Modelled from the spec: [keyManager.safeRemoveKey] (section 6), the
    removal counterpart of [safeAddKey]. *)
Definition safeRemoveKey (key : Key) : M (option error) :=
  let* r := reads ring in
  match km_save (delete (ID key) r) with
  | Some e => ret (Some e)
  | None => let* _ := set_keyRing (delete (ID key) r) in ret None
  end.

(** [starkkey.New()]: one read of the entropy source. *)
Definition New : M (Key * option error) :=
  let* n := draw in ret (starkkey_New n).

(** [starkkey.ToEncryptedJSON(key, password, scryptParams)]: one read of
    the entropy source (the salt). *)
Definition ToEncryptedJSON (key : Key) (password : string) (p : ScryptParams)
  : M (bytes * option error) :=
  let* n := draw in ret (starkkey_ToEncryptedJSON n key password p).

(** [caigo.Curve.Sign(hash, priv)]: the invocation is recorded in
    [curveCalls]; the primitive may draw a nonce from the entropy source. *)
Definition Curve_Sign (hash priv : Z) : M ((Z * Z) * option error) :=
  fun w =>
    (caigo_Curve_Sign (entropy w) hash priv,
     mkWorld (km w) (S (entropy w)) (curveCalls w ++ [(hash, priv)])).

End Calls.
End keyManager_calls.

(** ** The [StarkNet] interface of key stores *)

Module keystore.

Record StarkNet : Type := mkStarkNet {
  Get : string -> M (Key * option error);
  GetAll : M (slice Key * option error);
  Create : M (Key * option error);
  Add : Key -> M (option error);
  Delete : string -> M (Key * option error);
  Import : bytes -> string -> M (Key * option error);
  Export : string -> string -> M (bytes * option error);
  EnsureKey : M (option error)
}.

End keystore.

(** ** The key store: [type starknet struct { *keyManager }] *)

Module starknet.
Import keyManager_calls.
Section Store.
Context `{Collaborators}.

Definition getByID (id : string) : M (Key * option error) :=
  let* r := reads ring in
  match r !! id with
  | Some key => ret (key, None)
  | None => ret (zeroKey, Some (KeyNotFoundError id "StarkNet"))
  end.

Definition Get (id : string) : M (Key * option error) :=
  let* l := reads locked in
  if l then ret (zeroKey, Some ErrLocked)
  else getByID id.

(** The loop ranges over the map in an unspecified order; the order of
    [map_to_list] stands for it. *)
Definition GetAll : M (slice Key * option error) :=
  let* l := reads locked in
  if l then ret (None, Some ErrLocked)
  else
    let* r := reads ring in
    ret (fold_left (fun keys kv => append keys (snd kv)) (map_to_list r) None, None).

Definition Create : M (Key * option error) :=
  let* l := reads locked in
  if l then ret (zeroKey, Some ErrLocked)
  else
    let* '(key, err) := New in
    match err with
    | Some e => ret (zeroKey, Some e)
    | None => let* err' := safeAddKey key in ret (key, err')
    end.

Definition Add (key : Key) : M (option error) :=
  let* l := reads locked in
  if l then ret (Some ErrLocked)
  else
    let* r := reads ring in
    match r !! ID key with
    | Some _ => ret (Some (AlreadyExists (ID key)))
    | None => safeAddKey key
    end.

Definition Delete (id : string) : M (Key * option error) :=
  let* l := reads locked in
  if l then ret (zeroKey, Some ErrLocked)
  else
    let* '(key, err) := getByID id in
    match err with
    | Some e => ret (zeroKey, Some e)
    | None => let* err' := safeRemoveKey key in ret (key, err')
    end.

Definition Import (keyJSON : bytes) (password : string) : M (Key * option error) :=
  let* l := reads locked in
  if l then ret (zeroKey, Some ErrLocked)
  else
    let (key, err) := starkkey_FromEncryptedJSON keyJSON password in
    match err with
    | Some e => ret (zeroKey, Some (Wrap e "StarkNetKeyStore#ImportKey failed to decrypt key"))
    | None =>
        let* r := reads ring in
        match r !! ID key with
        | Some _ => ret (zeroKey, Some (AlreadyExists (ID key)))
        | None => let* err' := safeAddKey key in ret (key, err')
        end
    end.

Definition Export (id : string) (password : string) : M (bytes * option error) :=
  let* l := reads locked in
  if l then ret (None, Some ErrLocked)
  else
    let* '(key, err) := getByID id in
    match err with
    | Some e => ret (None, Some e)
    | None => let* p := reads (fun w => scryptParams (km w)) in ToEncryptedJSON key password p
    end.

Definition EnsureKey : M (option error) :=
  let* l := reads locked in
  if l then ret (Some ErrLocked)
  else
    let* r := reads ring in
    if (0 <? size r)%nat then ret None
    else
      let* '(key, err) := New in
      match err with
      | Some e => ret (Some e)
      | None =>
          let* _ := Infof ("Created StarkNet key with ID " +:+ ID key) in
          safeAddKey key
      end.

(** [var _ StarkNet = &starknet{}]: the store as built by
    [newStarkNetKeyStore]. *)
Definition newStarkNetKeyStore : keystore.StarkNet :=
  keystore.mkStarkNet Get GetAll Create Add Delete Import Export EnsureKey.

End Store.
End starknet.

(** ** The signature codec of the relay's [adapters] package *)

Module adapters.

Record Signature : Type := mkSignature { x : Z; y : Z }.

Section Codec.
Context `{Collaborators}.

(** [sigLen = 2 * maxPointByteLen] *)
Definition sigLen : nat := (2 * maxPointByteLen)%nat.

Definition fits (z : Z) : bool := (0 <=? z) && (z <? 256 ^ Z.of_nat maxPointByteLen).

(** Modelled from the spec: [adapters.SignatureFromBigInts], the first half
    of the codec's [encode] (section 4.2): it fails with [EncodingError]
    when either integer does not fit in the fixed field width, and never
    truncates. *)
Definition SignatureFromBigInts (x y : Z) : error + Signature :=
  if fits x && fits y then inr (mkSignature x y) else inl EncodingError.

(** Modelled from the spec: [Signature.Bytes], the second half of [encode]
    (section 4.2): the two components, each on the fixed field width, most
    significant byte first as [math/big] writes integers, one after the
    other in a flat buffer. *)
Definition Bytes (s : Signature) : bytes * option error :=
  (Some (big.FillBytes maxPointByteLen (x s) ++ big.FillBytes maxPointByteLen (y s)), None).

(** Modelled from the spec: [adapters.SignatureFromBytes], the first half
    of the codec's [decode] (section 4.2): it fails with
    [MalformedSignature] when the buffer length is not the fixed width of a
    two-component signature; each half is read as a non-negative integer
    (every byte string is one). *)
Definition SignatureFromBytes (b : bytes) : error + Signature :=
  if (len b =? sigLen)%nat
  then inr (mkSignature (big.SetBytes_list (take maxPointByteLen (contents b)))
                        (big.SetBytes_list (drop maxPointByteLen (contents b))))
  else inl MalformedSignature.

(** Modelled from the spec: [Signature.Ints], the second half of [decode]:
    the two components of the signature. *)
Definition Ints (s : Signature) : (option Z * option Z) * option error :=
  ((Some (x s), Some (y s)), None).

End Codec.
End adapters.

(** ** [loop.Keystore]: the generic byte-oriented signer *)

Module loop.

Record Keystore : Type := mkKeystore {
  Sign : string -> bytes -> M (bytes * option error);
  Accounts : M (slice string * option error)
}.

End loop.

(** ** [StarknetLooppSigner]: the key store as a [loop.Keystore] *)

Module StarknetLooppSigner.
Import keyManager_calls.
Section Signer.
Context `{Collaborators}.

(** Lines 235-239 of [Sign]: the signature of the curve as bytes. *)
Definition encode (x y : Z) : bytes * option error :=
  match adapters.SignatureFromBigInts x y with
  | inl e => (None, Some e)
  | inr sig => adapters.Bytes sig
  end.

Definition Sign (lk : keystore.StarkNet) (id : string) (hash : bytes)
  : M (bytes * option error) :=
  let* '(k, err) := keystore.Get lk id in
  match err with
  | Some e => ret (None, Some e)
  | None =>
      match hash with
      | None => ret (None, None)
      | Some _ =>
          let starkHash := big.SetBytes hash in
          let* '((x, y), err) := Curve_Sign starkHash (ToPrivKey k) in
          match err with
          | Some e => ret (None, Some (Errorf_w "error signing data with curve" e))
          | None => ret (encode x y)
          end
      end
  end.

Definition Accounts : M (slice string * option error) :=
  ret (None, Some (Errorf "unimplemented")).

(** [var _ loop.Keystore = &StarknetLooppSigner{}] *)
Definition Keystore (lk : keystore.StarkNet) : loop.Keystore :=
  loop.mkKeystore (Sign lk) Accounts.

End Signer.
End StarknetLooppSigner.

(** ** [keystoreAdapter]: a [loop.Keystore] as a curve-native signer *)

Module keystoreAdapter.

Record t : Type := mk { looppKs : loop.Keystore }.

Section Adapter.
Context `{Collaborators}.

Definition Decode (rawSignature : bytes) : (option Z * option Z) * option error :=
  match adapters.SignatureFromBytes rawSignature with
  | inl serr =>
      ((None, None),
       Some (Errorf_w "error creating starknet signature from raw signature" serr))
  | inr starknetSig => adapters.Ints starknetSig
  end.

Definition Sign (ca : t) (senderAddress : string) (hash : Z)
  : M ((option Z * option Z) * option error) :=
  let* '(raw, err) := loop.Sign (looppKs ca) senderAddress (big.Bytes hash) in
  match err with
  | Some e => ret ((None, None), Some (Errorf_w "error computing loopp keystore signature" e))
  | None => ret (Decode raw)
  end.

Definition Loopp (ca : t) : loop.Keystore := looppKs ca.

End Adapter.
End keystoreAdapter.

Definition NewStarkNetKeystoreAdapter (lk : loop.Keystore) : keystoreAdapter.t :=
  keystoreAdapter.mk lk.

Section Constructors.
Context `{Collaborators}.

Definition NewStarkNetLooppKeystore (ks : keystore.StarkNet) : loop.Keystore :=
  StarknetLooppSigner.Keystore ks.

(** The byte-oriented signer over the store of this file, and its [Sign]. *)
Definition looppSigner : loop.Keystore :=
  NewStarkNetLooppKeystore starknet.newStarkNetKeyStore.

Definition looppSign (id : string) (hash : bytes) : M (bytes * option error) :=
  loop.Sign looppSigner id hash.

End Constructors.

(** ** Clients: sequences of calls *)

(** A call a client of this file can make: the eight methods of the store,
    the two methods of the byte-oriented signer built over it, and [Sign]
    of the curve-native adapter wrapping that signer. *)
Inductive call : Type :=
| CallGet (id : string)
| CallGetAll
| CallCreate
| CallAdd (key : Key)
| CallDelete (id : string)
| CallImport (keyJSON : bytes) (password : string)
| CallExport (id password : string)
| CallEnsureKey
| CallSign (id : string) (hash : bytes)
| CallAccounts
| CallAdapterSign (senderAddress : string) (hash : Z).

Section Clients.
Context `{Collaborators}.

(** The state a call leaves behind. *)
Definition after (c : call) (w : world) : world :=
  match c with
  | CallGet id => snd (starknet.Get id w)
  | CallGetAll => snd (starknet.GetAll w)
  | CallCreate => snd (starknet.Create w)
  | CallAdd key => snd (starknet.Add key w)
  | CallDelete id => snd (starknet.Delete id w)
  | CallImport keyJSON password => snd (starknet.Import keyJSON password w)
  | CallExport id password => snd (starknet.Export id password w)
  | CallEnsureKey => snd (starknet.EnsureKey w)
  | CallSign id hash => snd (looppSign id hash w)
  | CallAccounts => snd (loop.Accounts looppSigner w)
  | CallAdapterSign a hash =>
      snd (keystoreAdapter.Sign (NewStarkNetKeystoreAdapter looppSigner) a hash w)
  end.

Definition after_all (cs : list call) (w : world) : world :=
  fold_left (fun w c => after c w) cs w.

(** The calls that go to the store itself. *)
Definition is_store_call (c : call) : bool :=
  match c with
  | CallSign _ _ | CallAccounts | CallAdapterSign _ _ => false
  | _ => true
  end.

End Clients.

(** ** A concrete set of collaborators *)

Module Fixture.

Definition K1 : Key := mkKey "K1" 7 (1, 2).
Definition K2 : Key := mkKey "K2" 9 (3, 4).

(** Keys generated one after the other get the identifiers "A", "B", ... *)
Definition New (n : nat) : Key * option error :=
  (mkKey (String (Ascii.ascii_of_nat (65 + n)) "") (Z.of_nat n + 1) (0, 0), None).

Definition FromEncryptedJSON (keyJSON : bytes) (password : string) : Key * option error :=
  if String.eqb password "pw" then (K1, None)
  else (zeroKey, Some (ExternalError "could not decrypt key with given password")).

Definition ToEncryptedJSON (n : nat) (key : Key) (password : string) (p : ScryptParams)
  : bytes * option error :=
  (Some [byte_of_Z (ToPrivKey key)], None).

Definition collaborators : Collaborators := {|
  starkkey_New := New;
  starkkey_FromEncryptedJSON := FromEncryptedJSON;
  starkkey_ToEncryptedJSON := ToEncryptedJSON;
  km_save := fun _ => None;
  caigo_Curve_Sign := fun _ hash priv => ((hash + priv, hash * priv + 1), None);
  maxPointByteLen := 32
|}.

(** Collaborators on a bad day: no entropy, no persistence, no curve. *)
Definition failing : Collaborators := {|
  starkkey_New := fun _ => (zeroKey, Some (ExternalError "entropy source exhausted"));
  starkkey_FromEncryptedJSON := FromEncryptedJSON;
  starkkey_ToEncryptedJSON := ToEncryptedJSON;
  km_save := fun _ => Some (ExternalError "unable to save keyring");
  caigo_Curve_Sign := fun _ _ _ => ((0, 0), Some (ExternalError "invalid private key"));
  maxPointByteLen := 32
|}.

Definition params : ScryptParams := mkScryptParams 2 1.

(** An unlocked store with an empty ring, an unlocked store holding [K1]
    and a locked store holding [K1]. *)
Definition empty : world := mkWorld (mkKeyManager false ∅ params []) 0 [].
Definition unlocked : world := mkWorld (mkKeyManager false {[ "K1" := K1 ]} params []) 0 [].
Definition sealed : world := mkWorld (mkKeyManager true {[ "K1" := K1 ]} params []) 0 [].

(** An unlocked store already holding a key under the identifier the
    generator gives its first key. *)
Definition taken : world :=
  mkWorld (mkKeyManager false {[ "A" := mkKey "A" 99 (5, 6) ]} params []) 0 [].

(** A signer whose signatures are one byte long. *)
Definition shortSigner : loop.Keystore :=
  loop.mkKeystore (fun _ _ => ret (Some [x01], None)) (ret (None, None)).

(** The order of the Stark curve's field. *)
Definition starkPrime : Z := 2 ^ 251 + 17 * 2 ^ 192 + 1.

End Fixture.

(** * Properties *)

(** ** Integers and bytes *)

Example SetBytes_ex : big.SetBytes (Some [x01; x00; xff]) = 65791.
Proof. reflexivity. Qed.

Example Bytes_ex : big.Bytes 65791 = Some [x01; x00; xff].
Proof. reflexivity. Qed.

Example Bytes_zero : big.Bytes 0 = Some [].
Proof. reflexivity. Qed.

Example FillBytes_ex : big.FillBytes 4 258 = [x00; x00; x01; x02].
Proof. reflexivity. Qed.

Lemma byte_to_Z_range (b : byte) : 0 <= byte_to_Z b < 256.
Proof.
  unfold byte_to_Z. pose proof (Byte.to_N_bounded b) as Hb. lia.
Qed.

Lemma byte_to_of_Z (z : Z) : byte_to_Z (byte_of_Z z) = z mod 256.
Proof.
  unfold byte_to_Z, byte_of_Z.
  assert (Hr : 0 <= z mod 256 < 256) by (apply Z.mod_pos_bound; lia).
  destruct (Byte.of_N (Z.to_N (z mod 256))) as [b|] eqn:Hof.
  - apply Byte.to_of_N in Hof. rewrite Hof. lia.
  - apply Byte.of_N_None_iff in Hof. lia.
Qed.

Lemma SetBytes_list_snoc (l : list byte) (b : byte) :
  big.SetBytes_list (l ++ [b]) = big.SetBytes_list l * 256 + byte_to_Z b.
Proof. unfold big.SetBytes_list. now rewrite fold_left_app. Qed.

Lemma length_FillBytes (n : nat) (z : Z) : length (big.FillBytes n z) = n.
Proof.
  revert z. induction n as [|n IH]; intros z; simpl; [reflexivity|].
  rewrite length_app, IH. simpl. lia.
Qed.

(** Reading back the [n] bytes written for [z] gives [z] modulo [256^n]. *)
Lemma SetBytes_FillBytes (n : nat) (z : Z) :
  big.SetBytes_list (big.FillBytes n z) = z mod 256 ^ Z.of_nat n.
Proof.
  revert z. induction n as [|n IH]; intros z.
  - simpl. now rewrite Z.mod_1_r.
  - cbn [big.FillBytes]. rewrite SetBytes_list_snoc, IH, byte_to_of_Z.
    rewrite Nat2Z.inj_succ, Z.pow_succ_r by lia.
    rewrite (Z.rem_mul_r z 256 (256 ^ Z.of_nat n)) by lia. lia.
Qed.

Lemma SetBytes_FillBytes_fits (n : nat) (z : Z) :
  0 <= z < 256 ^ Z.of_nat n -> big.SetBytes_list (big.FillBytes n z) = z.
Proof. intros Hz. rewrite SetBytes_FillBytes. now apply Z.mod_small. Qed.

Lemma byteLen_bound (z : Z) : 0 <= z -> z < 256 ^ Z.of_nat (big.byteLen z).
Proof.
  intros Hz. unfold big.byteLen. rewrite (Z.abs_eq z Hz).
  destruct (z =? 0) eqn:Hz0.
  - apply Z.eqb_eq in Hz0. subst z. simpl. lia.
  - apply Z.eqb_neq in Hz0.
    assert (Hpos : 0 < z) by lia.
    pose proof (Z.log2_nonneg z) as Hlog.
    destruct (Z.log2_spec z Hpos) as [_ Hup].
    rewrite Nat2Z.inj_succ, Z2Nat.id by (apply Z.div_pos; lia).
    change 256 with (2 ^ 8).
    rewrite <- Z.pow_mul_r by (try apply Z.le_le_succ_r; try apply Z.div_pos; lia).
    eapply Z.lt_le_trans; [exact Hup|].
    apply Z.pow_le_mono_r; [lia|].
    pose proof (Z.mod_pos_bound (Z.log2 z) 8 ltac:(lia)) as Hm.
    pose proof (Z.div_mod (Z.log2 z) 8 ltac:(lia)) as Hd. lia.
Qed.

(** [SetBytes] reads back what [Bytes] writes: the absolute value. *)
Lemma SetBytes_Bytes (z : Z) : big.SetBytes (big.Bytes z) = Z.abs z.
Proof.
  unfold big.SetBytes, big.Bytes. cbn [contents].
  apply SetBytes_FillBytes_fits.
  pose proof (byteLen_bound (Z.abs z) (Z.abs_nonneg z)) as Hb.
  unfold big.byteLen in *. rewrite Z.abs_idemp in Hb. lia.
Qed.

(** ** The signature codec *)

Section CodecFacts.
Context `{Collaborators}.

Lemma fits_spec (z : Z) :
  adapters.fits z = true <-> 0 <= z < 256 ^ Z.of_nat maxPointByteLen.
Proof. unfold adapters.fits. rewrite andb_true_iff, Z.leb_le, Z.ltb_lt. tauto. Qed.

(** A buffer of the wrong length is refused whole: no component is
    returned. *)
Lemma Decode_wrong_length (raw : bytes) :
  len raw <> adapters.sigLen ->
  keystoreAdapter.Decode raw =
    ((None, None),
     Some (Errorf_w "error creating starknet signature from raw signature"
                    MalformedSignature)).
Proof.
  intros Hlen. unfold keystoreAdapter.Decode, adapters.SignatureFromBytes.
  apply Nat.eqb_neq in Hlen. now rewrite Hlen.
Qed.

(** An integer outside the field width is refused by the encoder. *)
Lemma encode_out_of_range (r s : Z) :
  adapters.fits r = false \/ adapters.fits s = false ->
  StarknetLooppSigner.encode r s = (None, Some EncodingError).
Proof.
  intros Hout. unfold StarknetLooppSigner.encode, adapters.SignatureFromBigInts.
  destruct Hout as [-> | ->]; [reflexivity | now rewrite andb_false_r].
Qed.

End CodecFacts.

Section RoundTrip.
Context `{Collaborators}.

(** The encoder writes each component on [maxPointByteLen] bytes. *)
Lemma encode_fits (r s : Z) :
  adapters.fits r = true -> adapters.fits s = true ->
  StarknetLooppSigner.encode r s =
    (Some (big.FillBytes maxPointByteLen r ++ big.FillBytes maxPointByteLen s), None).
Proof.
  intros Fr Fs. unfold StarknetLooppSigner.encode, adapters.SignatureFromBigInts.
  now rewrite Fr, Fs.
Qed.

(** The decoder splits a buffer of the right length in the middle. *)
Lemma Decode_halves (a b : list byte) :
  length a = maxPointByteLen -> length b = maxPointByteLen ->
  keystoreAdapter.Decode (Some (a ++ b)) =
    ((Some (big.SetBytes_list a), Some (big.SetBytes_list b)), None).
Proof.
  intros Ha Hb.
  unfold keystoreAdapter.Decode, adapters.SignatureFromBytes, adapters.sigLen.
  cbn [len contents]. rewrite length_app, Ha, Hb.
  replace (maxPointByteLen + maxPointByteLen =? 2 * maxPointByteLen)%nat with true
    by (symmetry; apply Nat.eqb_eq; lia).
  rewrite <- Ha at 1 2. now rewrite take_app_length, drop_app_length.
Qed.

Lemma Decode_encode (r s : Z) :
  adapters.fits r = true -> adapters.fits s = true ->
  keystoreAdapter.Decode (fst (StarknetLooppSigner.encode r s)) = ((Some r, Some s), None).
Proof.
  intros Fr Fs. rewrite (encode_fits r s Fr Fs). cbn [fst].
  rewrite Decode_halves by apply length_FillBytes.
  apply fits_spec in Fr, Fs. now rewrite !SetBytes_FillBytes_fits.
Qed.

End RoundTrip.

(** C1: round trip of the signature codec.  For every pair [(r, s)] of
    integers in the range [0 <= _ < p] of a field whose elements fit the
    codec's byte width, the encode step of [StarknetLooppSigner.Sign]
    succeeds, and [keystoreAdapter.Decode] of the buffer it produces gives
    back exactly [(r, s)], without error. *)
Theorem codec_round_trip `{Collaborators} (p r s : Z) :
  p <= 256 ^ Z.of_nat maxPointByteLen ->
  0 <= r < p ->
  0 <= s < p ->
  snd (StarknetLooppSigner.encode r s) = None /\
  keystoreAdapter.Decode (fst (StarknetLooppSigner.encode r s)) = ((Some r, Some s), None).
Proof.
  intros Hp Hr Hs.
  assert (Fr : adapters.fits r = true) by (apply fits_spec; lia).
  assert (Fs : adapters.fits s = true) by (apply fits_spec; lia).
  split.
  - now rewrite (encode_fits r s Fr Fs).
  - now apply Decode_encode.
Qed.

(** ** The key store *)

(** Unfolds the monad: a call becomes a function of the state. *)
Ltac run :=
  unfold bind, ret, reads, set_keyRing, Infof, draw in *;
  cbn beta iota in *.

(** Fixes the outcome of a lookup in the ring or of the locked flag. *)
Ltac know H := unfold ring, locked in *; rewrite ?H; cbn beta iota.

Section StoreFacts.
Context `{Collaborators}.
Import keyManager_calls.

Lemma getByID_found (w : world) (id : string) (key : Key) :
  ring w !! id = Some key -> starknet.getByID id w = ((key, None), w).
Proof. intros Hk. unfold starknet.getByID. run. now know Hk. Qed.

Lemma getByID_missing (w : world) (id : string) :
  ring w !! id = None ->
  starknet.getByID id w = ((zeroKey, Some (KeyNotFoundError id "StarkNet")), w).
Proof. intros Hk. unfold starknet.getByID. run. now know Hk. Qed.

(** [getByID] reads the ring and nothing else. *)
Lemma getByID_pure (w : world) (id : string) : snd (starknet.getByID id w) = w.
Proof.
  destruct (ring w !! id) as [key|] eqn:Hk.
  - now rewrite (getByID_found _ _ _ Hk).
  - now rewrite (getByID_missing _ _ Hk).
Qed.

Lemma Get_unlocked (w : world) (id : string) :
  locked w = false -> starknet.Get id w = starknet.getByID id w.
Proof. intros Hl. unfold starknet.Get. run. now know Hl. Qed.

Lemma Get_locked (w : world) (id : string) :
  locked w = true -> starknet.Get id w = ((zeroKey, Some ErrLocked), w).
Proof. intros Hl. unfold starknet.Get. run. now know Hl. Qed.

(** What the insertion of the key manager does, by the outcome of its
    persistence step. *)
Lemma safeAddKey_saved (w : world) (key : Key) :
  km_save (<[ID key := key]> (ring w)) = None ->
  exists w', safeAddKey key w = (None, w') /\
             ring w' = <[ID key := key]> (ring w) /\
             locked w' = locked w /\
             curveCalls w' = curveCalls w /\
             entropy w' = entropy w.
Proof.
  intros Hs. unfold safeAddKey. run. rewrite Hs. eexists. split; [reflexivity|].
  now cbn.
Qed.

Lemma safeAddKey_refused (w : world) (key : Key) (e : error) :
  km_save (<[ID key := key]> (ring w)) = Some e -> safeAddKey key w = (Some e, w).
Proof. intros Hs. unfold safeAddKey. run. now rewrite Hs. Qed.

Lemma safeRemoveKey_saved (w : world) (key : Key) :
  km_save (delete (ID key) (ring w)) = None ->
  exists w', safeRemoveKey key w = (None, w') /\
             ring w' = delete (ID key) (ring w) /\
             locked w' = locked w.
Proof.
  intros Hs. unfold safeRemoveKey. run. rewrite Hs. eexists. split; [reflexivity|].
  now cbn.
Qed.

Lemma safeRemoveKey_refused (w : world) (key : Key) (e : error) :
  km_save (delete (ID key) (ring w)) = Some e -> safeRemoveKey key w = (Some e, w).
Proof. intros Hs. unfold safeRemoveKey. run. now rewrite Hs. Qed.

(** Each operation tests the locked flag before anything else. *)
Lemma GetAll_locked (w : world) :
  locked w = true -> starknet.GetAll w = ((None, Some ErrLocked), w).
Proof. intros Hl. unfold starknet.GetAll. run. now know Hl. Qed.

Lemma Create_locked (w : world) :
  locked w = true -> starknet.Create w = ((zeroKey, Some ErrLocked), w).
Proof. intros Hl. unfold starknet.Create. run. now know Hl. Qed.

Lemma Add_locked (w : world) (key : Key) :
  locked w = true -> starknet.Add key w = (Some ErrLocked, w).
Proof. intros Hl. unfold starknet.Add. run. now know Hl. Qed.

Lemma Delete_locked (w : world) (id : string) :
  locked w = true -> starknet.Delete id w = ((zeroKey, Some ErrLocked), w).
Proof. intros Hl. unfold starknet.Delete. run. now know Hl. Qed.

Lemma Import_locked (w : world) (keyJSON : bytes) (password : string) :
  locked w = true ->
  starknet.Import keyJSON password w = ((zeroKey, Some ErrLocked), w).
Proof. intros Hl. unfold starknet.Import. run. now know Hl. Qed.

Lemma Export_locked (w : world) (id password : string) :
  locked w = true -> starknet.Export id password w = ((None, Some ErrLocked), w).
Proof. intros Hl. unfold starknet.Export. run. now know Hl. Qed.

Lemma EnsureKey_locked (w : world) :
  locked w = true -> starknet.EnsureKey w = (Some ErrLocked, w).
Proof. intros Hl. unfold starknet.EnsureKey. run. now know Hl. Qed.

Lemma GetAll_unlocked (w : world) :
  locked w = false ->
  starknet.GetAll w =
    ((fold_left (fun keys kv => append keys (snd kv)) (map_to_list (ring w)) None, None), w).
Proof. intros Hl. unfold starknet.GetAll. run. now know Hl. Qed.

Lemma Export_missing (w : world) (id password : string) :
  locked w = false -> ring w !! id = None ->
  starknet.Export id password w = ((None, Some (KeyNotFoundError id "StarkNet")), w).
Proof.
  intros Hl Hk. unfold starknet.Export. run. know Hl.
  now rewrite (getByID_missing w id Hk).
Qed.

(** A successful export encrypts the key under the password with the
    configured cost parameters; it reads the entropy source once. *)
Lemma Export_found (w : world) (id password : string) (key : Key) :
  locked w = false -> ring w !! id = Some key ->
  starknet.Export id password w =
    (starkkey_ToEncryptedJSON (entropy w) key password (scryptParams (km w)),
     mkWorld (km w) (S (entropy w)) (curveCalls w)).
Proof.
  intros Hl Hk. unfold starknet.Export. run. know Hl.
  rewrite (getByID_found w id key Hk). unfold ToEncryptedJSON. run. reflexivity.
Qed.

End StoreFacts.

Section StoreMutations.
Context `{Collaborators}.
Import keyManager_calls.

Lemma Add_existing (w : world) (key k' : Key) :
  locked w = false -> ring w !! ID key = Some k' ->
  starknet.Add key w = (Some (AlreadyExists (ID key)), w).
Proof. intros Hl Hk. unfold starknet.Add. run. know Hl. now know Hk. Qed.

Lemma Add_fresh (w : world) (key : Key) :
  locked w = false -> ring w !! ID key = None ->
  starknet.Add key w = safeAddKey key w.
Proof. intros Hl Hk. unfold starknet.Add. run. know Hl. now know Hk. Qed.

Lemma Delete_missing (w : world) (id : string) :
  locked w = false -> ring w !! id = None ->
  starknet.Delete id w = ((zeroKey, Some (KeyNotFoundError id "StarkNet")), w).
Proof.
  intros Hl Hk. unfold starknet.Delete. run. know Hl.
  now rewrite (getByID_missing w id Hk).
Qed.

Lemma Delete_found (w : world) (id : string) (key : Key) :
  locked w = false -> ring w !! id = Some key ->
  starknet.Delete id w = ((key, fst (safeRemoveKey key w)), snd (safeRemoveKey key w)).
Proof.
  intros Hl Hk. unfold starknet.Delete. run. know Hl.
  rewrite (getByID_found w id key Hk). now destruct (safeRemoveKey key w).
Qed.

Lemma Import_undecryptable (w : world) (keyJSON : bytes) (password : string)
      (k : Key) (e : error) :
  locked w = false ->
  starkkey_FromEncryptedJSON keyJSON password = (k, Some e) ->
  starknet.Import keyJSON password w =
    ((zeroKey, Some (Wrap e "StarkNetKeyStore#ImportKey failed to decrypt key")), w).
Proof. intros Hl Hd. unfold starknet.Import. run. know Hl. now rewrite Hd. Qed.

Lemma Import_existing (w : world) (keyJSON : bytes) (password : string) (k k' : Key) :
  locked w = false ->
  starkkey_FromEncryptedJSON keyJSON password = (k, None) ->
  ring w !! ID k = Some k' ->
  starknet.Import keyJSON password w = ((zeroKey, Some (AlreadyExists (ID k))), w).
Proof. intros Hl Hd Hk. unfold starknet.Import. run. know Hl. rewrite Hd. now know Hk. Qed.

Lemma Import_fresh (w : world) (keyJSON : bytes) (password : string) (k : Key) :
  locked w = false ->
  starkkey_FromEncryptedJSON keyJSON password = (k, None) ->
  ring w !! ID k = None ->
  starknet.Import keyJSON password w = ((k, fst (safeAddKey k w)), snd (safeAddKey k w)).
Proof.
  intros Hl Hd Hk. unfold starknet.Import. run. know Hl. rewrite Hd. know Hk.
  now destruct (safeAddKey k w).
Qed.

Lemma EnsureKey_nonempty (w : world) :
  locked w = false -> (0 < size (ring w))%nat -> starknet.EnsureKey w = (None, w).
Proof.
  intros Hl Hs. unfold starknet.EnsureKey. run. know Hl.
  apply Nat.ltb_lt in Hs. now know Hs.
Qed.

(** On an empty ring a key is generated; when generation fails nothing is
    logged or inserted. *)
Lemma EnsureKey_generation_failed (w : world) (key : Key) (e : error) :
  locked w = false -> ring w = ∅ ->
  starkkey_New (entropy w) = (key, Some e) ->
  starknet.EnsureKey w = (Some e, mkWorld (km w) (S (entropy w)) (curveCalls w)).
Proof.
  intros Hl Hr Hn. unfold starknet.EnsureKey, New. run. know Hl. know Hr.
  rewrite map_size_empty. cbn. now rewrite Hn.
Qed.

Lemma EnsureKey_generated (w : world) (key : Key) :
  locked w = false -> ring w = ∅ ->
  starkkey_New (entropy w) = (key, None) ->
  starknet.EnsureKey w =
    safeAddKey key
      (mkWorld (mkKeyManager false ∅ (scryptParams (km w))
                  (logger (km w) ++ ["Created StarkNet key with ID " +:+ ID key]))
               (S (entropy w)) (curveCalls w)).
Proof.
  intros Hl Hr Hn. unfold starknet.EnsureKey, New. run. know Hl. know Hr.
  rewrite map_size_empty. cbn. rewrite Hn. cbn. now rewrite Hl, Hr.
Qed.

(** From an empty ring, one call ends with exactly one key when it reports
    success, and with the ring still empty when it reports an error. *)
Lemma EnsureKey_empty_outcome (w : world) :
  locked w = false -> ring w = ∅ ->
  locked (snd (starknet.EnsureKey w)) = false /\
  ((fst (starknet.EnsureKey w) = None /\ size (ring (snd (starknet.EnsureKey w))) = 1%nat)
   \/ (fst (starknet.EnsureKey w) <> None /\ ring (snd (starknet.EnsureKey w)) = ∅)).
Proof.
  intros Hl Hr.
  destruct (starkkey_New (entropy w)) as [key [e|]] eqn:Hn.
  - rewrite (EnsureKey_generation_failed w key e Hl Hr Hn). cbn.
    split; [assumption|]. right. split; [discriminate | assumption].
  - rewrite (EnsureKey_generated w key Hl Hr Hn).
    set (w0 := mkWorld _ _ _).
    destruct (km_save (<[ID key := key]> (ring w0))) as [e|] eqn:Hs.
    + rewrite (safeAddKey_refused w0 key e Hs). cbn.
      split; [reflexivity|]. right. split; [discriminate | reflexivity].
    + destruct (safeAddKey_saved w0 key Hs) as (w1 & -> & Hr1 & Hl1 & _).
      cbn [fst snd]. split; [now rewrite Hl1|]. left. split; [reflexivity|].
      rewrite Hr1. unfold w0, ring. cbn. rewrite insert_empty. apply map_size_singleton.
Qed.

End StoreMutations.

(** C3: lock gating.  In every state whose locked flag is set, each of the
    eight lifecycle operations (Get, GetAll, Create, Add, Delete, Import,
    Export, EnsureKey) returns [ErrLocked] (with the zero value of its
    result, where it has one) and leaves the whole state, the ring
    included, exactly as it was. *)
Theorem locked_store_refuses `{Collaborators} (w : world) :
  locked w = true ->
  (forall id, starknet.Get id w = ((zeroKey, Some ErrLocked), w)) /\
  starknet.GetAll w = ((None, Some ErrLocked), w) /\
  starknet.Create w = ((zeroKey, Some ErrLocked), w) /\
  (forall key, starknet.Add key w = (Some ErrLocked, w)) /\
  (forall id, starknet.Delete id w = ((zeroKey, Some ErrLocked), w)) /\
  (forall keyJSON password,
      starknet.Import keyJSON password w = ((zeroKey, Some ErrLocked), w)) /\
  (forall id password, starknet.Export id password w = ((None, Some ErrLocked), w)) /\
  starknet.EnsureKey w = (Some ErrLocked, w).
Proof.
  intros Hl.
  repeat split; intros;
    auto using Get_locked, GetAll_locked, Create_locked, Add_locked, Delete_locked,
      Import_locked, Export_locked, EnsureKey_locked.
Qed.

(** C10: the read operations leave the ring alone.  In every state and for
    all arguments, whether the call succeeds or fails, the ring after
    [Get], [GetAll] and [Export] is the ring before the call; so is the
    locked flag. *)
Theorem reads_keep_ring `{Collaborators} (w : world) (id password : string) :
  (ring (snd (starknet.Get id w)) = ring w /\
   locked (snd (starknet.Get id w)) = locked w) /\
  (ring (snd (starknet.GetAll w)) = ring w /\
   locked (snd (starknet.GetAll w)) = locked w) /\
  (ring (snd (starknet.Export id password w)) = ring w /\
   locked (snd (starknet.Export id password w)) = locked w).
Proof.
  destruct (locked w) eqn:Hl.
  - now rewrite Get_locked, GetAll_locked, Export_locked.
  - rewrite Get_unlocked, getByID_pure, GetAll_unlocked by assumption.
    destruct (ring w !! id) as [key|] eqn:Hk.
    + now rewrite (Export_found w id password key Hl Hk).
    + now rewrite (Export_missing w id password Hl Hk).
Qed.

(** C4: uniqueness of identifiers under [Add].  In an unlocked store, when
    the identifier of [key] is already in the ring, [Add key] fails with
    the already-exists error for that identifier and the state (so the
    ring and its size) is unchanged.  When the identifier is not in the
    ring, [Add] inserts [key]: it hands the key to the key manager's
    insertion, after which the ring is the old ring with [key] under its
    identifier, one entry larger, and a second [Add] of a key with that
    identifier fails and changes nothing; [Add] reports an error in this
    case only when the key manager's persistence step does, and then the
    state is unchanged. *)
Theorem Add_unique `{Collaborators} (w : world) (key : Key) :
  locked w = false ->
  (forall k', ring w !! ID key = Some k' ->
     starknet.Add key w = (Some (AlreadyExists (ID key)), w) /\
     size (ring (snd (starknet.Add key w))) = size (ring w)) /\
  (ring w !! ID key = None ->
     (km_save (<[ID key := key]> (ring w)) = None ->
        exists w', starknet.Add key w = (None, w') /\
          ring w' = <[ID key := key]> (ring w) /\
          size (ring w') = S (size (ring w)) /\
          forall key2, ID key2 = ID key ->
            starknet.Add key2 w' = (Some (AlreadyExists (ID key)), w')) /\
     (forall e, km_save (<[ID key := key]> (ring w)) = Some e ->
        starknet.Add key w = (Some e, w))).
Proof.
  intros Hl. split.
  - intros k' Hk. now rewrite (Add_existing w key k' Hl Hk).
  - intros Hk. rewrite (Add_fresh w key Hl Hk). split.
    + intros Hs.
      destruct (safeAddKey_saved w key Hs) as (w' & Hadd & Hr & Hl' & _).
      exists w'. split; [assumption|]. split; [assumption|]. split.
      * rewrite Hr. now apply map_size_insert_None.
      * intros key2 Hid. rewrite <- Hid. apply (Add_existing w' key2 key).
        -- now rewrite Hl'.
        -- rewrite Hr, Hid. apply lookup_insert_eq.
    + intros e Hs. now apply safeAddKey_refused.
Qed.

(** C7: [Delete].  In an unlocked store, when [id] is not in the ring,
    [Delete id] fails with the not-found error for [id] and leaves the
    state unchanged, so that a following [Get id] fails with the same
    not-found error.  When [id] is in the ring, [Delete] returns the key
    stored under it and removes it: after the key manager's removal the
    ring is the old ring without [id]; [Delete] reports an error in this
    case only when the persistence step does. *)
Theorem Delete_spec `{Collaborators} (w : world) (id : string) :
  locked w = false ->
  (ring w !! id = None ->
     starknet.Delete id w = ((zeroKey, Some (KeyNotFoundError id "StarkNet")), w) /\
     starknet.Get id (snd (starknet.Delete id w)) =
       ((zeroKey, Some (KeyNotFoundError id "StarkNet")), w)) /\
  (forall key, ring w !! id = Some key -> ID key = id ->
     (km_save (delete id (ring w)) = None ->
        exists w', starknet.Delete id w = ((key, None), w') /\
          ring w' = delete id (ring w) /\
          ring w' !! id = None /\
          size (ring w) = S (size (ring w'))) /\
     (forall e, km_save (delete id (ring w)) = Some e ->
        starknet.Delete id w = ((key, Some e), w))).
Proof.
  intros Hl. split.
  - intros Hk. rewrite (Delete_missing w id Hl Hk). split; [reflexivity|].
    cbn [snd]. rewrite (Get_unlocked w id Hl). now apply getByID_missing.
  - intros key Hk Hid. rewrite (Delete_found w id key Hl Hk). subst id. split.
    + intros Hs.
      destruct (safeRemoveKey_saved w key Hs) as (w' & -> & Hr & _).
      exists w'. cbn [fst snd]. split; [reflexivity|]. split; [assumption|]. split.
      * rewrite Hr. apply lookup_delete_eq.
      * rewrite Hr. rewrite <- (insert_delete_id (ring w) (ID key) key Hk) at 1.
        apply map_size_insert_None, lookup_delete_eq.
    + intros e Hs. now rewrite (safeRemoveKey_refused w key e Hs).
Qed.

(** C8: [Import].  In an unlocked store: when the blob cannot be decrypted
    with the password, [Import] fails with the decryption error wrapped as
    "failed to decrypt key" and the state is unchanged; when the recovered
    key's identifier is already in the ring, it fails with the
    already-exists error for that identifier and the state is unchanged;
    otherwise it inserts the recovered key and returns it (reporting an
    error only when the key manager's persistence step does). *)
Theorem Import_spec `{Collaborators} (w : world) (keyJSON : bytes) (password : string) :
  locked w = false ->
  (forall k e, starkkey_FromEncryptedJSON keyJSON password = (k, Some e) ->
     starknet.Import keyJSON password w =
       ((zeroKey, Some (Wrap e "StarkNetKeyStore#ImportKey failed to decrypt key")), w)) /\
  (forall k k', starkkey_FromEncryptedJSON keyJSON password = (k, None) ->
     ring w !! ID k = Some k' ->
     starknet.Import keyJSON password w = ((zeroKey, Some (AlreadyExists (ID k))), w)) /\
  (forall k, starkkey_FromEncryptedJSON keyJSON password = (k, None) ->
     ring w !! ID k = None ->
     (km_save (<[ID k := k]> (ring w)) = None ->
        exists w', starknet.Import keyJSON password w = ((k, None), w') /\
          ring w' = <[ID k := k]> (ring w) /\
          ring w' !! ID k = Some k) /\
     (forall e, km_save (<[ID k := k]> (ring w)) = Some e ->
        starknet.Import keyJSON password w = ((k, Some e), w))).
Proof.
  intros Hl. split; [|split].
  - intros k e Hd. now apply (Import_undecryptable w keyJSON password k e).
  - intros k k' Hd Hk. now apply (Import_existing w keyJSON password k k').
  - intros k Hd Hk. rewrite (Import_fresh w keyJSON password k Hl Hd Hk). split.
    + intros Hs.
      destruct (safeAddKey_saved w k Hs) as (w' & -> & Hr & _).
      exists w'. cbn [fst snd]. split; [reflexivity|]. split; [assumption|].
      rewrite Hr. apply lookup_insert_eq.
    + intros e Hs. now rewrite (safeAddKey_refused w k e Hs).
Qed.

(** C5: idempotent bootstrap.  In an unlocked store, [EnsureKey] on a
    non-empty ring returns success and changes nothing.  On an empty ring
    it generates one key and inserts it: the ring then holds exactly that
    key, and a second call is a no-op, so two calls from an empty ring
    leave exactly one key.  More generally, after two calls from an empty
    ring the ring holds exactly one key as soon as one of the two calls
    reported success (a call fails only when key generation or the key
    manager's persistence step does). *)
Theorem EnsureKey_idempotent `{Collaborators} (w : world) :
  locked w = false ->
  ((0 < size (ring w))%nat -> starknet.EnsureKey w = (None, w)) /\
  (ring w = ∅ ->
     (forall key, starkkey_New (entropy w) = (key, None) ->
        km_save {[ID key := key]} = None ->
        exists w1, starknet.EnsureKey w = (None, w1) /\
          ring w1 = {[ID key := key]} /\
          size (ring w1) = 1%nat /\
          starknet.EnsureKey w1 = (None, w1)) /\
     (fst (starknet.EnsureKey w) = None \/
      fst (starknet.EnsureKey (snd (starknet.EnsureKey w))) = None ->
      size (ring (snd (starknet.EnsureKey (snd (starknet.EnsureKey w))))) = 1%nat)).
Proof.
  intros Hl. split; [now apply EnsureKey_nonempty|].
  intros Hr. split.
  - intros key Hn Hs. rewrite (EnsureKey_generated w key Hl Hr Hn).
    set (w0 := mkWorld _ _ _).
    assert (Hs0 : km_save (<[ID key := key]> (ring w0)) = None)
      by (unfold w0, ring; cbn; now rewrite insert_empty).
    destruct (safeAddKey_saved w0 key Hs0) as (w1 & -> & Hr1 & Hl1 & _).
    assert (Hring : ring w1 = {[ID key := key]})
      by (rewrite Hr1; unfold w0, ring; cbn; apply insert_empty).
    assert (Hsize : size (ring w1) = 1%nat)
      by (rewrite Hring; apply map_size_singleton).
    exists w1. repeat split; try assumption.
    apply EnsureKey_nonempty; [now rewrite Hl1 | lia].
  - destruct (EnsureKey_empty_outcome w Hl Hr) as [Hl1 [[He1 Hs1] | [He1 Hr1]]].
    + intros _. rewrite (EnsureKey_nonempty _ Hl1) by lia. assumption.
    + intros [He | He]; [contradiction|].
      destruct (EnsureKey_empty_outcome _ Hl1 Hr1) as [_ [[_ Hs2] | [He2 _]]];
        [assumption | contradiction].
Qed.

(** ** The byte-oriented signer *)

(** Unfolds [Sign] of the signer built over the store down to its body. *)
Ltac open_Sign :=
  unfold looppSign, looppSigner, NewStarkNetLooppKeystore;
  cbn [loop.Sign StarknetLooppSigner.Keystore];
  unfold StarknetLooppSigner.Sign;
  cbn [keystore.Get starknet.newStarkNetKeyStore];
  run.

Section SignerFacts.
Context `{Collaborators}.

Lemma Sign_locked (w : world) (id : string) (hash : bytes) :
  locked w = true ->
  looppSign id hash w = ((None, Some ErrLocked), w).
Proof.
  intros Hl. open_Sign. now rewrite (Get_locked w id Hl).
Qed.

Lemma Sign_missing (w : world) (id : string) (hash : bytes) :
  locked w = false -> ring w !! id = None ->
  looppSign id hash w =
    ((None, Some (KeyNotFoundError id "StarkNet")), w).
Proof.
  intros Hl Hk. open_Sign.
  now rewrite (Get_unlocked w id Hl), (getByID_missing w id Hk).
Qed.

Lemma Sign_nil_found (w : world) (id : string) (k : Key) :
  locked w = false -> ring w !! id = Some k ->
  looppSign id None w = ((None, None), w).
Proof.
  intros Hl Hk. open_Sign.
  now rewrite (Get_unlocked w id Hl), (getByID_found w id k Hk).
Qed.

(** With a non-nil digest and a key, the curve is asked to sign the digest
    read as an integer with the key's private scalar; its signature is
    encoded, its error wrapped. *)
Lemma Sign_digest (w : world) (id : string) (k : Key) (h : list byte) :
  locked w = false -> ring w !! id = Some k ->
  looppSign id (Some h) w =
    (match caigo_Curve_Sign (entropy w) (big.SetBytes_list h) (ToPrivKey k) with
     | (_, Some e) => (None, Some (Errorf_w "error signing data with curve" e))
     | ((x, y), None) => StarknetLooppSigner.encode x y
     end,
     mkWorld (km w) (S (entropy w))
             (curveCalls w ++ [(big.SetBytes_list h, ToPrivKey k)])).
Proof.
  intros Hl Hk. open_Sign.
  rewrite (Get_unlocked w id Hl), (getByID_found w id k Hk).
  unfold keyManager_calls.Curve_Sign, big.SetBytes. cbn [contents].
  now destruct (caigo_Curve_Sign _ _ _) as [[x y] [e|]].
Qed.

End SignerFacts.

(** C2 (amended): the existence probe.  A call [Sign(id, nil)] returns
    empty success (nil bytes, nil error) when the store is unlocked and
    [id] is in the ring, the not-found error when the store is unlocked
    and [id] is absent, and [ErrLocked] when the store is locked; in all
    three cases the state is unchanged, so the curve signing primitive is
    not invoked. *)
Theorem Sign_nil_probe `{Collaborators} (w : world) (id : string) :
  (locked w = false -> forall k, ring w !! id = Some k ->
     looppSign id None w = ((None, None), w)) /\
  (locked w = false -> ring w !! id = None ->
     looppSign id None w =
       ((None, Some (KeyNotFoundError id "StarkNet")), w)) /\
  (locked w = true ->
     looppSign id None w = ((None, Some ErrLocked), w)) /\
  curveCalls (snd (looppSign id None w)) = curveCalls w.
Proof.
  split; [|split; [|split]].
  - intros Hl k Hk. now apply (Sign_nil_found w id k).
  - intros Hl Hk. now apply Sign_missing.
  - intros Hl. now apply Sign_locked.
  - destruct (locked w) eqn:Hl.
    + now rewrite Sign_locked.
    + destruct (ring w !! id) as [k|] eqn:Hk.
      * now rewrite (Sign_nil_found w id k).
      * now rewrite Sign_missing.
Qed.

(** C9: only a nil digest is a probe.  For every [id] in the ring of an
    unlocked store, a call [Sign(id, h)] with [h] a non-nil slice invokes
    the curve signing primitive once, on the digest read as an integer and
    the private scalar of the key; for [h] of length zero that integer is
    zero and the call returns what the primitive's outcome dictates (its
    signature encoded, or its error wrapped), where the nil digest returns
    empty success without any invocation. *)
Theorem Sign_empty_digest_signs `{Collaborators} (w : world) (id : string) (k : Key) :
  locked w = false ->
  ring w !! id = Some k ->
  (forall h, curveCalls (snd (looppSign id (Some h) w)) =
             curveCalls w ++ [(big.SetBytes (Some h), ToPrivKey k)]) /\
  curveCalls (snd (looppSign id (Some []) w)) =
    curveCalls w ++ [(0, ToPrivKey k)] /\
  fst (looppSign id (Some []) w) =
    match caigo_Curve_Sign (entropy w) 0 (ToPrivKey k) with
    | (_, Some e) => (None, Some (Errorf_w "error signing data with curve" e))
    | ((x, y), None) => StarknetLooppSigner.encode x y
    end /\
  looppSign id None w = ((None, None), w).
Proof.
  intros Hl Hk. split; [|split; [|split]].
  - intros h. now rewrite (Sign_digest w id k h Hl Hk).
  - now rewrite (Sign_digest w id k [] Hl Hk).
  - now rewrite (Sign_digest w id k [] Hl Hk).
  - now apply (Sign_nil_found w id k).
Qed.

(** ** The curve-native adapter *)

Section AdapterFacts.
Context `{Collaborators}.

Lemma adapter_Sign_signer_failed (ca : keystoreAdapter.t) (address : string) (hash : Z)
      (w w' : world) (raw : bytes) (e : error) :
  loop.Sign (keystoreAdapter.looppKs ca) address (big.Bytes hash) w = ((raw, Some e), w') ->
  keystoreAdapter.Sign ca address hash w =
    (((None, None), Some (Errorf_w "error computing loopp keystore signature" e)), w').
Proof. intros Hs. unfold keystoreAdapter.Sign. run. now rewrite Hs. Qed.

Lemma adapter_Sign_signed (ca : keystoreAdapter.t) (address : string) (hash : Z)
      (w w' : world) (raw : bytes) :
  loop.Sign (keystoreAdapter.looppKs ca) address (big.Bytes hash) w = ((raw, None), w') ->
  keystoreAdapter.Sign ca address hash w = (keystoreAdapter.Decode raw, w').
Proof. intros Hs. unfold keystoreAdapter.Sign. run. now rewrite Hs. Qed.

End AdapterFacts.

(** C6: error propagation in [keystoreAdapter.Sign].  For every wrapped
    signer, address and digest: an error of the wrapped signer is returned
    wrapped with the context "error computing loopp keystore signature";
    when the wrapped signer succeeds, the result is exactly that of the
    decode step on the bytes it returned, so an error of the decode step
    comes back as it is, with nothing added; and for a buffer of the wrong
    length that error is a malformed-signature error (in the sense of
    [errors.Is]). *)
Theorem adapter_Sign_errors `{Collaborators} (ca : keystoreAdapter.t) (address : string)
        (hash : Z) (w w' : world) (raw : bytes) :
  (forall e,
     loop.Sign (keystoreAdapter.looppKs ca) address (big.Bytes hash) w = ((raw, Some e), w') ->
     keystoreAdapter.Sign ca address hash w =
       (((None, None), Some (Errorf_w "error computing loopp keystore signature" e)), w')) /\
  (loop.Sign (keystoreAdapter.looppKs ca) address (big.Bytes hash) w = ((raw, None), w') ->
     keystoreAdapter.Sign ca address hash w = (keystoreAdapter.Decode raw, w') /\
     (forall e, snd (keystoreAdapter.Decode raw) = Some e ->
        snd (fst (keystoreAdapter.Sign ca address hash w)) = Some e) /\
     (len raw <> adapters.sigLen ->
        exists e, keystoreAdapter.Sign ca address hash w = (((None, None), Some e), w') /\
                  keystoreAdapter.Decode raw = ((None, None), Some e) /\
                  Is e MalformedSignature = true)).
Proof.
  split.
  - intros e Hs. now apply (adapter_Sign_signer_failed ca address hash w w' raw e).
  - intros Hs. rewrite (adapter_Sign_signed ca address hash w w' raw Hs).
    split; [reflexivity|]. split; [now intros e He|].
    intros Hlen. rewrite (Decode_wrong_length raw Hlen).
    eexists. split; [reflexivity|]. split; reflexivity.
Qed.

(** ** Signing through both adapters *)

(** The curve-native adapter over the byte-oriented signer of the store
    gives the curve's own signature: for a non-negative digest and a key
    in the ring of an unlocked store, when the curve primitive returns
    [(x, y)] within the field width, [keystoreAdapter.Sign] returns
    [(x, y)], having invoked the primitive once on that digest. *)
Lemma adapter_over_signer `{Collaborators} (w : world) (id : string) (k : Key)
      (hash x y : Z) :
  locked w = false ->
  ring w !! id = Some k ->
  0 <= hash ->
  caigo_Curve_Sign (entropy w) hash (ToPrivKey k) = ((x, y), None) ->
  adapters.fits x = true -> adapters.fits y = true ->
  keystoreAdapter.Sign (NewStarkNetKeystoreAdapter looppSigner) id hash w =
    (((Some x, Some y), None),
     mkWorld (km w) (S (entropy w)) (curveCalls w ++ [(hash, ToPrivKey k)])).
Proof.
  intros Hl Hk Hh Hc Fx Fy.
  pose proof (SetBytes_Bytes hash) as Hb.
  unfold big.SetBytes, big.Bytes in Hb. cbn [contents] in Hb.
  rewrite (Z.abs_eq hash Hh) in Hb.
  assert (Hs : loop.Sign
                 (keystoreAdapter.looppKs (NewStarkNetKeystoreAdapter looppSigner))
                 id (big.Bytes hash) w =
               ((fst (StarknetLooppSigner.encode x y), None),
                mkWorld (km w) (S (entropy w)) (curveCalls w ++ [(hash, ToPrivKey k)]))).
  { unfold NewStarkNetKeystoreAdapter, big.Bytes. cbn [keystoreAdapter.looppKs].
    fold (looppSign id (Some (big.FillBytes (big.byteLen hash) (Z.abs hash)))).
    rewrite (Sign_digest w id k _ Hl Hk), (Z.abs_eq hash Hh), Hb, Hc.
    now rewrite (encode_fits x y Fx Fy). }
  rewrite (adapter_Sign_signed _ _ _ _ _ _ Hs).
  now rewrite Decode_encode.
Qed.

(** ** The ring stays keyed by identifier *)

Section Keyed.
Context `{Collaborators}.
Import keyManager_calls.

Lemma keyed_insert (r : gmap string Key) (key : Key) :
  keyed r -> keyed (<[ID key := key]> r).
Proof. intros Hr. now apply map_Forall_insert_2. Qed.

Lemma keyed_delete (r : gmap string Key) (id : string) :
  keyed r -> keyed (delete id r).
Proof. intros Hr. now apply map_Forall_delete. Qed.

Lemma safeAddKey_keyed (w : world) (key : Key) :
  keyed (ring w) -> keyed (ring (snd (safeAddKey key w))).
Proof.
  intros Hr. unfold safeAddKey. run.
  destruct (km_save _); cbn; [assumption | now apply keyed_insert].
Qed.

Lemma safeRemoveKey_keyed (w : world) (key : Key) :
  keyed (ring w) -> keyed (ring (snd (safeRemoveKey key w))).
Proof.
  intros Hr. unfold safeRemoveKey. run.
  destruct (km_save _); cbn; [assumption | now apply keyed_delete].
Qed.

(** Every operation of the store takes a keyed ring to a keyed ring; the
    empty ring is keyed, so every ring the store builds is. *)
Lemma store_keyed (w : world) :
  keyed (ring w) ->
  keyed (ring (snd (starknet.Create w))) /\
  (forall key, keyed (ring (snd (starknet.Add key w)))) /\
  (forall id, keyed (ring (snd (starknet.Delete id w)))) /\
  (forall keyJSON password, keyed (ring (snd (starknet.Import keyJSON password w)))) /\
  keyed (ring (snd (starknet.EnsureKey w))).
Proof.
  intros Hr. destruct (locked w) eqn:Hl.
  - rewrite Create_locked, EnsureKey_locked by assumption.
    repeat split; intros;
      rewrite ?Add_locked, ?Delete_locked, ?Import_locked by assumption; assumption.
  - repeat split; intros.
    + unfold starknet.Create, New. run. know Hl.
      destruct (starkkey_New _) as [key [e|]]; [assumption|].
      pose proof (safeAddKey_keyed (mkWorld (km w) (S (entropy w)) (curveCalls w)) key Hr).
      now destruct (safeAddKey key _).
    + destruct (ring w !! ID key) as [k'|] eqn:Hk.
      * now rewrite (Add_existing w key k' Hl Hk).
      * rewrite (Add_fresh w key Hl Hk). now apply safeAddKey_keyed.
    + destruct (ring w !! id) as [key|] eqn:Hk.
      * rewrite (Delete_found w id key Hl Hk). now apply safeRemoveKey_keyed.
      * now rewrite (Delete_missing w id Hl Hk).
    + destruct (starkkey_FromEncryptedJSON keyJSON password) as [k [e|]] eqn:Hd.
      * now rewrite (Import_undecryptable w keyJSON password k e Hl Hd).
      * destruct (ring w !! ID k) as [k'|] eqn:Hk.
        -- now rewrite (Import_existing w keyJSON password k k' Hl Hd Hk).
        -- rewrite (Import_fresh w keyJSON password k Hl Hd Hk).
           now apply safeAddKey_keyed.
    + destruct (decide (ring w = ∅)) as [He|Hne].
      * destruct (starkkey_New (entropy w)) as [key [e|]] eqn:Hn.
        -- now rewrite (EnsureKey_generation_failed w key e Hl He Hn).
        -- rewrite (EnsureKey_generated w key Hl He Hn).
           apply safeAddKey_keyed. apply map_Forall_empty.
      * rewrite EnsureKey_nonempty; [assumption..|].
        destruct (size (ring w)) eqn:Hs; [|lia].
        now apply map_size_empty_inv in Hs.
Qed.

End Keyed.

(** ** The properties at concrete stores *)

Section Concrete.
#[local] Existing Instance Fixture.collaborators.

Lemma codec_round_trip_witness :
  snd (StarknetLooppSigner.encode 5 (Fixture.starkPrime - 1)) = None /\
  keystoreAdapter.Decode (fst (StarknetLooppSigner.encode 5 (Fixture.starkPrime - 1)))
  = ((Some 5, Some (Fixture.starkPrime - 1)), None).
Proof.
  apply (codec_round_trip Fixture.starkPrime 5 (Fixture.starkPrime - 1)); vm_compute;
    first [ discriminate | split; discriminate | split; [discriminate | reflexivity] ].
Defined.

Lemma locked_store_refuses_witness :
  locked Fixture.sealed = true /\
  starknet.Get "K1" Fixture.sealed = ((zeroKey, Some ErrLocked), Fixture.sealed) /\
  starknet.Add Fixture.K2 Fixture.sealed = (Some ErrLocked, Fixture.sealed) /\
  starknet.Delete "K1" Fixture.sealed = ((zeroKey, Some ErrLocked), Fixture.sealed) /\
  starknet.EnsureKey Fixture.sealed = (Some ErrLocked, Fixture.sealed).
Proof.
  split; [reflexivity|].
  destruct (locked_store_refuses Fixture.sealed eq_refl)
    as (HG & _ & _ & HA & HD & _ & _ & HE).
  split; [apply HG|]. split; [apply HA|]. split; [apply HD | exact HE].
Defined.

Lemma Add_unique_witness :
  starknet.Add Fixture.K1 Fixture.unlocked = (Some (AlreadyExists "K1"), Fixture.unlocked) /\
  exists w', starknet.Add Fixture.K2 Fixture.unlocked = (None, w') /\
             ring w' = <[ "K2" := Fixture.K2 ]> (ring Fixture.unlocked) /\
             size (ring w') = 2%nat.
Proof.
  split.
  - destruct (Add_unique Fixture.unlocked Fixture.K1 eq_refl) as [Hdup _].
    exact (proj1 (Hdup Fixture.K1 eq_refl)).
  - destruct (Add_unique Fixture.unlocked Fixture.K2 eq_refl) as [_ Hnew].
    destruct (Hnew eq_refl) as [Hins _].
    destruct (Hins eq_refl) as (w' & Hadd & Hr & Hs & _).
    exists w'. split; [exact Hadd|]. split; [exact Hr | exact Hs].
Defined.

Lemma Delete_spec_witness :
  (starknet.Delete "K2" Fixture.unlocked =
     ((zeroKey, Some (KeyNotFoundError "K2" "StarkNet")), Fixture.unlocked) /\
   starknet.Get "K2" (snd (starknet.Delete "K2" Fixture.unlocked)) =
     ((zeroKey, Some (KeyNotFoundError "K2" "StarkNet")), Fixture.unlocked)) /\
  exists w', starknet.Delete "K1" Fixture.unlocked = ((Fixture.K1, None), w') /\
             ring w' = delete "K1" (ring Fixture.unlocked) /\
             ring w' !! "K1" = None.
Proof.
  split.
  - destruct (Delete_spec Fixture.unlocked "K2" eq_refl) as [Hmiss _].
    exact (Hmiss eq_refl).
  - destruct (Delete_spec Fixture.unlocked "K1" eq_refl) as [_ Hfound].
    destruct (Hfound Fixture.K1 eq_refl eq_refl) as [Hdel _].
    destruct (Hdel eq_refl) as (w' & Hd & Hr & Hk & _).
    exists w'. split; [exact Hd|]. split; [exact Hr | exact Hk].
Defined.

Lemma Import_spec_witness :
  starknet.Import (Some [x00]) "wrong" Fixture.empty =
    ((zeroKey,
      Some (Wrap (ExternalError "could not decrypt key with given password")
                 "StarkNetKeyStore#ImportKey failed to decrypt key")), Fixture.empty) /\
  starknet.Import (Some [x00]) "pw" Fixture.unlocked =
    ((zeroKey, Some (AlreadyExists "K1")), Fixture.unlocked) /\
  exists w', starknet.Import (Some [x00]) "pw" Fixture.empty = ((Fixture.K1, None), w') /\
             ring w' = <[ "K1" := Fixture.K1 ]> (ring Fixture.empty).
Proof.
  split; [|split].
  - destruct (Import_spec Fixture.empty (Some [x00]) "wrong" eq_refl) as [Hbad _].
    exact (Hbad zeroKey _ eq_refl).
  - destruct (Import_spec Fixture.unlocked (Some [x00]) "pw" eq_refl) as (_ & Hdup & _).
    exact (Hdup Fixture.K1 Fixture.K1 eq_refl eq_refl).
  - destruct (Import_spec Fixture.empty (Some [x00]) "pw" eq_refl) as (_ & _ & Hnew).
    destruct (Hnew Fixture.K1 eq_refl eq_refl) as [Hins _].
    destruct (Hins eq_refl) as (w' & Hi & Hr & _).
    exists w'. split; [exact Hi | exact Hr].
Defined.

Lemma EnsureKey_idempotent_witness :
  starknet.EnsureKey Fixture.unlocked = (None, Fixture.unlocked) /\
  (exists w1, starknet.EnsureKey Fixture.empty = (None, w1) /\
              size (ring w1) = 1%nat /\
              starknet.EnsureKey w1 = (None, w1)) /\
  size (ring (snd (starknet.EnsureKey (snd (starknet.EnsureKey Fixture.empty))))) = 1%nat.
Proof.
  split; [|split].
  - destruct (EnsureKey_idempotent Fixture.unlocked eq_refl) as [Hnoop _].
    apply Hnoop. vm_compute. lia.
  - destruct (EnsureKey_idempotent Fixture.empty eq_refl) as [_ Hboot].
    destruct (Hboot eq_refl) as [Hone _].
    destruct (Hone (fst (Fixture.New 0)) eq_refl eq_refl) as (w1 & He & _ & Hs & He2).
    exists w1. split; [exact He|]. split; [exact Hs | exact He2].
  - destruct (EnsureKey_idempotent Fixture.empty eq_refl) as [_ Hboot].
    destruct (Hboot eq_refl) as [_ Htwice].
    apply Htwice. left. reflexivity.
Defined.

Lemma adapter_Sign_errors_witness :
  keystoreAdapter.Sign (NewStarkNetKeystoreAdapter looppSigner) "K2" 5 Fixture.unlocked =
    (((None, None),
      Some (Errorf_w "error computing loopp keystore signature"
                     (KeyNotFoundError "K2" "StarkNet"))), Fixture.unlocked) /\
  (exists e,
     keystoreAdapter.Sign (NewStarkNetKeystoreAdapter Fixture.shortSigner) "K1" 5
                          Fixture.unlocked =
       (((None, None), Some e), Fixture.unlocked) /\
             keystoreAdapter.Decode (Some [x01]) = ((None, None), Some e) /\
             Is e MalformedSignature = true).
Proof.
  split.
  - destruct (adapter_Sign_errors (NewStarkNetKeystoreAdapter looppSigner)
                "K2" 5 Fixture.unlocked Fixture.unlocked None) as [Hfail _].
    exact (Hfail _ eq_refl).
  - destruct (adapter_Sign_errors (NewStarkNetKeystoreAdapter Fixture.shortSigner)
                "K1" 5 Fixture.unlocked Fixture.unlocked (Some [x01])) as [_ Hok].
    destruct (Hok eq_refl) as (_ & _ & Hbad).
    apply Hbad. vm_compute. discriminate.
Defined.

Example adapter_over_signer_ex :
  keystoreAdapter.Sign (NewStarkNetKeystoreAdapter looppSigner) "K1" 5 Fixture.unlocked =
    (((Some 12, Some 36), None),
     mkWorld (km Fixture.unlocked) 1 [(5, 7)]).
Proof. vm_compute. reflexivity. Qed.

Example GetAll_ex :
  fst (starknet.GetAll Fixture.unlocked) = (Some [Fixture.K1], None) /\
  fst (starknet.GetAll Fixture.empty) = (None, None).
Proof. split; vm_compute; reflexivity. Qed.

Example Create_twice_ex :
  size (ring (snd (starknet.Create (snd (starknet.Create Fixture.empty))))) = 2%nat.
Proof. vm_compute. reflexivity. Qed.

Lemma Sign_nil_probe_witness :
  looppSign "K1" None Fixture.unlocked = ((None, None), Fixture.unlocked) /\
  looppSign "K2" None Fixture.unlocked =
    ((None, Some (KeyNotFoundError "K2" "StarkNet")), Fixture.unlocked) /\
  looppSign "K1" None Fixture.sealed = ((None, Some ErrLocked), Fixture.sealed).
Proof.
  split; [|split].
  - destruct (Sign_nil_probe Fixture.unlocked "K1") as [Hfound _].
    exact (Hfound eq_refl Fixture.K1 eq_refl).
  - destruct (Sign_nil_probe Fixture.unlocked "K2") as (_ & Hmiss & _).
    exact (Hmiss eq_refl eq_refl).
  - destruct (Sign_nil_probe Fixture.sealed "K1") as (_ & _ & Hlocked & _).
    exact (Hlocked eq_refl).
Defined.

Lemma Sign_empty_digest_signs_witness :
  curveCalls (snd (looppSign "K1" (Some []) Fixture.unlocked)) = [(0, 7)] /\
  looppSign "K1" None Fixture.unlocked = ((None, None), Fixture.unlocked).
Proof.
  destruct (Sign_empty_digest_signs Fixture.unlocked "K1" Fixture.K1 eq_refl eq_refl)
    as (_ & Hcall & _ & Hnil).
  split; [exact Hcall | exact Hnil].
Defined.

(** C2, as stated, fails on the code.  On a locked store the probe of an
    identifier that is in the ring does not return empty success, and the
    probe of one that is absent does not return the not-found error: both
    return [ErrLocked].  And an empty digest that is not nil is not a
    probe: on an unlocked store holding the identifier, the curve signing
    primitive is invoked (on the digest zero) and signature bytes come
    back. *)
Lemma Sign_probe_counterexample :
  (ring Fixture.sealed !! "K1" = Some Fixture.K1 /\
   fst (looppSign "K1" None Fixture.sealed) = (None, Some ErrLocked) /\
   fst (looppSign "K1" None Fixture.sealed) <> (None, None)) /\
  (ring Fixture.sealed !! "K2" = None /\
   fst (looppSign "K2" None Fixture.sealed) = (None, Some ErrLocked) /\
   fst (looppSign "K2" None Fixture.sealed)
     <> (None, Some (KeyNotFoundError "K2" "StarkNet"))) /\
  (ring Fixture.unlocked !! "K1" = Some Fixture.K1 /\
   len (Some [] : bytes) = 0%nat /\
   curveCalls Fixture.unlocked = [] /\
   curveCalls (snd (looppSign "K1" (Some []) Fixture.unlocked)) = [(0, 7)] /\
   fst (looppSign "K1" (Some []) Fixture.unlocked) <> (None, None) /\
   len (fst (fst (looppSign "K1" (Some []) Fixture.unlocked))) = 64%nat).
Proof.
  repeat split; try reflexivity; vm_compute; discriminate.
Qed.

End Concrete.

(** ** The error paths, with collaborators that fail *)

Section Failing.
#[local] Existing Instance Fixture.failing.

Example Add_not_saved_ex :
  starknet.Add Fixture.K2 Fixture.unlocked =
    (Some (ExternalError "unable to save keyring"), Fixture.unlocked).
Proof. vm_compute. reflexivity. Qed.

Example Delete_not_saved_ex :
  starknet.Delete "K1" Fixture.unlocked =
    ((Fixture.K1, Some (ExternalError "unable to save keyring")), Fixture.unlocked).
Proof. vm_compute. reflexivity. Qed.

Example EnsureKey_no_entropy_ex :
  fst (starknet.EnsureKey Fixture.empty) = Some (ExternalError "entropy source exhausted") /\
  ring (snd (starknet.EnsureKey Fixture.empty)) = ∅.
Proof. split; vm_compute; reflexivity. Qed.

Example Create_no_entropy_ex :
  fst (starknet.Create Fixture.empty) =
    (zeroKey, Some (ExternalError "entropy source exhausted")).
Proof. vm_compute. reflexivity. Qed.

Example Sign_curve_error_ex :
  fst (looppSign "K1" (Some [x05]) Fixture.unlocked) =
    (None, Some (Errorf_w "error signing data with curve"
                          (ExternalError "invalid private key"))).
Proof. vm_compute. reflexivity. Qed.

Example Accounts_ex :
  fst (loop.Accounts looppSigner Fixture.unlocked) = (None, Some (Errorf "unimplemented")).
Proof. reflexivity. Qed.

End Failing.

(** * Further properties *)

(** ** Outcomes of the store operations *)

(** Opens every store operation down to the state it computes. *)
Ltac open_store :=
  unfold starknet.Get, starknet.GetAll, starknet.Create, starknet.Add,
    starknet.Delete, starknet.Import, starknet.Export, starknet.EnsureKey,
    starknet.getByID, keyManager_calls.safeAddKey, keyManager_calls.safeRemoveKey,
    keyManager_calls.New, keyManager_calls.ToEncryptedJSON in *;
  run; unfold ring, locked in *.

(** Splits on everything an opened operation branches on. *)
Ltac cases := repeat case_match; simplify_eq/=.

Section Outcomes.
Context `{Collaborators}.

(** What a reported success of the mutating operations implies. *)
Lemma Add_ok_inv (w w' : world) (key : Key) :
  starknet.Add key w = (None, w') ->
  locked w = false /\ ring w !! ID key = None /\
  ring w' = <[ID key := key]> (ring w) /\ locked w' = false.
Proof. open_store. intros Hadd. cases; auto. Qed.

Lemma Delete_ok_inv (w w' : world) (id : string) (key : Key) :
  starknet.Delete id w = ((key, None), w') ->
  locked w = false /\ ring w !! id = Some key /\
  ring w' = delete (ID key) (ring w) /\ locked w' = false.
Proof. open_store. intros Hdel. cases; auto. Qed.

Lemma Import_ok_inv (w w' : world) (keyJSON : bytes) (password : string) (key : Key) :
  starknet.Import keyJSON password w = ((key, None), w') ->
  locked w = false /\ starkkey_FromEncryptedJSON keyJSON password = (key, None) /\
  ring w !! ID key = None /\
  ring w' = <[ID key := key]> (ring w) /\ locked w' = false.
Proof. open_store. intros Himp. cases; auto. Qed.

Lemma Create_ok_inv (w w' : world) (key : Key) :
  starknet.Create w = ((key, None), w') ->
  locked w = false /\ starkkey_New (entropy w) = (key, None) /\
  ring w' = <[ID key := key]> (ring w) /\ locked w' = false.
Proof. open_store. intros Hcr. cases; auto. Qed.

End Outcomes.

(** X1: [Get] succeeds exactly on an unlocked store holding the identifier,
    and then returns the key stored under it; when it fails it returns the
    zero key, with [ErrLocked] on a locked store and otherwise the
    not-found error naming the identifier and the key type "StarkNet". *)
Theorem Get_outcome `{Collaborators} (w : world) (id : string) :
  (forall key, fst (starknet.Get id w) = (key, None) <->
               locked w = false /\ ring w !! id = Some key) /\
  (forall key e, fst (starknet.Get id w) = (key, Some e) ->
     key = zeroKey /\
     ((locked w = true /\ e = ErrLocked) \/
      (locked w = false /\ ring w !! id = None /\ e = KeyNotFoundError id "StarkNet"))).
Proof.
  split.
  - intros key. split.
    + open_store. intros Hget. cases; auto.
    + intros [Hl Hk]. now rewrite (Get_unlocked w id Hl), (getByID_found w id key Hk).
  - intros key e. open_store. intros Hget. cases; auto.
Qed.

(** ** [GetAll] is a snapshot of the ring *)

Lemma fold_append_contents {A B} (f : B -> A) (l : list B) (init : slice A) :
  contents (fold_left (fun keys kv => append keys (f kv)) l init) =
    contents init ++ map f l.
Proof.
  revert init. induction l as [|b l IH]; intros init; simpl.
  - now rewrite app_nil_r.
  - rewrite IH. unfold append at 1. cbn [contents]. now rewrite <- app_assoc.
Qed.

Lemma fold_append_nil {A B} (f : B -> A) (l : list B) :
  fold_left (fun keys kv => append keys (f kv)) l None = None <-> l = [].
Proof.
  split; [|now intros ->].
  destruct l as [|b l]; [reflexivity|]. simpl. intros Hnil.
  pose proof (fold_append_contents f l (append None (f b))) as Hc.
  rewrite Hnil in Hc. now destruct l.
Qed.

(** X2: On an unlocked store [GetAll] returns, without error and without
    changing the state, a slice holding exactly the keys of the ring: as
    many elements as the ring has entries, a key is in it exactly when it
    is stored under some identifier, no identifier occurs twice when the
    ring is keyed by identifier, and the slice is nil (not an empty slice)
    exactly when the ring is empty. *)
Theorem GetAll_snapshot `{Collaborators} (w : world) :
  locked w = false ->
  exists keys,
    starknet.GetAll w = ((keys, None), w) /\
    len keys = size (ring w) /\
    (forall key, key ∈ contents keys <-> exists id, ring w !! id = Some key) /\
    (keyed (ring w) -> NoDup (ID <$> contents keys)) /\
    (keys = None <-> ring w = ∅).
Proof.
  intros Hl. rewrite (GetAll_unlocked w Hl). eexists. split; [reflexivity|].
  set (keys := fold_left _ _ _).
  assert (Hc : contents keys = (map_to_list (ring w)).*2)
    by (unfold keys; now rewrite fold_append_contents).
  split; [|split; [|split]].
  - transitivity (length (contents keys)); [now destruct keys|].
    now rewrite Hc, length_fmap, length_map_to_list.
  - intros key. rewrite Hc, list_elem_of_fmap. split.
    + intros ([id k] & -> & Hin). exists id. now apply elem_of_map_to_list.
    + intros [id Hk]. exists (id, key). split; [reflexivity|].
      now apply elem_of_map_to_list.
  - intros Hkeyed. rewrite Hc.
    replace (ID <$> (map_to_list (ring w)).*2) with ((map_to_list (ring w)).*1);
      [apply NoDup_fst_map_to_list|].
    rewrite <- list_fmap_compose. apply Forall_fmap_ext_1, Forall_forall.
    intros [id k] Hin%elem_of_map_to_list. cbn. symmetry. exact (Hkeyed id k Hin).
  - unfold keys. rewrite fold_append_nil. apply map_to_list_empty_iff.
Qed.

(** ** [Create] *)

(** X3: On an unlocked store [Create] draws a key from the generator.  When
    generation fails it returns the zero key and the generator's error as
    it is, and the ring is unchanged.  When generation succeeds it returns
    the generated key whatever the outcome of the insertion; if it reports
    no error the key is in the ring under its identifier, every other
    entry is as before and [Get] of that identifier returns the key; if it
    reports an error the ring is unchanged. *)
Theorem Create_outcome `{Collaborators} (w : world) (key : Key) :
  locked w = false ->
  (forall e, starkkey_New (entropy w) = (key, Some e) ->
     fst (starknet.Create w) = (zeroKey, Some e) /\
     ring (snd (starknet.Create w)) = ring w) /\
  (starkkey_New (entropy w) = (key, None) ->
     fst (fst (starknet.Create w)) = key /\
     (snd (fst (starknet.Create w)) = None ->
        ring (snd (starknet.Create w)) = <[ID key := key]> (ring w) /\
        starknet.Get (ID key) (snd (starknet.Create w)) =
          ((key, None), snd (starknet.Create w))) /\
     (snd (fst (starknet.Create w)) <> None ->
        ring (snd (starknet.Create w)) = ring w)).
Proof.
  intros Hl. split.
  - intros e Hn. open_store. now cases.
  - intros Hn. split; [open_store; now cases|]. split.
    + intros Hok.
      destruct (starknet.Create w) as [[k err] w'] eqn:Hcr. cbn in Hok. subst err.
      assert (k = key) by (revert Hcr; open_store; intros; now cases). subst k.
      destruct (Create_ok_inv w w' key Hcr) as (_ & _ & Hr & Hl').
      cbn [snd]. split; [assumption|].
      rewrite (Get_unlocked w' _ Hl'). apply getByID_found.
      rewrite Hr. apply lookup_insert_eq.
    + open_store. intros Herr. now cases.
Qed.

(** X4: [Create] makes no duplicate check: when the identifier of the
    generated key is already in the ring and the insertion succeeds, the
    entry under that identifier is replaced by the new key and the ring
    keeps its size, where [Add] of the same key fails with the
    already-exists error and changes nothing. *)
Theorem Create_replaces `{Collaborators} (w : world) (key old : Key) :
  locked w = false ->
  starkkey_New (entropy w) = (key, None) ->
  ring w !! ID key = Some old ->
  snd (fst (starknet.Create w)) = None ->
  ring (snd (starknet.Create w)) !! ID key = Some key /\
  size (ring (snd (starknet.Create w))) = size (ring w) /\
  starknet.Add key w = (Some (AlreadyExists (ID key)), w).
Proof.
  intros Hl Hn Hold Hok.
  destruct (starknet.Create w) as [[k err] w'] eqn:Hcr. cbn in Hok. subst err.
  assert (k = key) by (revert Hcr; open_store; intros; now cases). subst k.
  destruct (Create_ok_inv w w' key Hcr) as (_ & _ & Hr & _). cbn [snd].
  split; [rewrite Hr; apply lookup_insert_eq|]. split.
  - rewrite Hr. apply map_size_insert_Some. eauto.
  - now apply (Add_existing w key old).
Qed.

(** ** How the store operations compose *)

(** X5: After a successful [Add], [Get] of the key's identifier returns the
    key that was added, and [Get] of any other identifier returns what it
    returned before. *)
Theorem Add_then_Get `{Collaborators} (w w' : world) (key : Key) :
  starknet.Add key w = (None, w') ->
  starknet.Get (ID key) w' = ((key, None), w') /\
  (forall id, id <> ID key -> fst (starknet.Get id w') = fst (starknet.Get id w)).
Proof.
  intros Hadd. destruct (Add_ok_inv w w' key Hadd) as (Hl & _ & Hr & Hl'). split.
  - rewrite (Get_unlocked w' _ Hl'). apply getByID_found.
    rewrite Hr. apply lookup_insert_eq.
  - intros id Hne. rewrite (Get_unlocked w' id Hl'), (Get_unlocked w id Hl).
    unfold starknet.getByID. run. unfold ring in *. rewrite Hr.
    rewrite lookup_insert_ne by congruence. now destruct (keyRing (km w) !! id).
Qed.

(** X6: Adding a key and then deleting its identifier, both with success,
    gives back the ring there was before, and [Delete] returns the key
    that was added. *)
Theorem Add_then_Delete `{Collaborators} (w w1 w2 : world) (key k : Key) :
  starknet.Add key w = (None, w1) ->
  starknet.Delete (ID key) w1 = ((k, None), w2) ->
  k = key /\ ring w2 = ring w.
Proof.
  intros Hadd Hdel.
  destruct (Add_ok_inv w w1 key Hadd) as (_ & Hk & Hr1 & _).
  destruct (Delete_ok_inv w1 w2 _ k Hdel) as (_ & Hk1 & Hr2 & _).
  rewrite Hr1, lookup_insert_eq in Hk1. injection Hk1 as <-.
  split; [reflexivity|]. rewrite Hr2, Hr1. now apply delete_insert_id.
Qed.

(** X7: In a ring keyed by identifier, deleting an identifier and then adding
    the key that [Delete] returned, both with success, gives back the ring
    there was before. *)
Theorem Delete_then_Add `{Collaborators} (w w1 w2 : world) (id : string) (key : Key) :
  keyed (ring w) ->
  starknet.Delete id w = ((key, None), w1) ->
  starknet.Add key w1 = (None, w2) ->
  ring w2 = ring w.
Proof.
  intros Hkeyed Hdel Hadd.
  destruct (Delete_ok_inv w w1 id key Hdel) as (_ & Hk & Hr1 & _).
  destruct (Add_ok_inv w1 w2 key Hadd) as (_ & _ & Hr2 & _).
  pose proof (Hkeyed id key Hk) as Hid.
  rewrite Hr2, Hr1, Hid. now apply insert_delete_id.
Qed.

(** X8: In a ring keyed by identifier, once [Delete] of an identifier has
    succeeded, a second [Delete] and a [Get] of that identifier both fail
    with the not-found error, and the second [Delete] changes nothing. *)
Theorem Delete_twice `{Collaborators} (w w1 : world) (id : string) (key : Key) :
  keyed (ring w) ->
  starknet.Delete id w = ((key, None), w1) ->
  starknet.Delete id w1 = ((zeroKey, Some (KeyNotFoundError id "StarkNet")), w1) /\
  starknet.Get id w1 = ((zeroKey, Some (KeyNotFoundError id "StarkNet")), w1).
Proof.
  intros Hkeyed Hdel.
  destruct (Delete_ok_inv w w1 id key Hdel) as (_ & Hk & Hr1 & Hl1).
  pose proof (Hkeyed id key Hk) as Hid.
  assert (Hgone : ring w1 !! id = None) by (rewrite Hr1, Hid; apply lookup_delete_eq).
  split.
  - now apply Delete_missing.
  - rewrite (Get_unlocked w1 id Hl1). now apply getByID_missing.
Qed.

(** X9: Once [Import] of a blob has succeeded, [Get] of the imported key's
    identifier returns that key, and importing the same blob with the same
    password again fails with the already-exists error and changes
    nothing. *)
Theorem Import_twice `{Collaborators} (w w1 : world) (keyJSON : bytes)
        (password : string) (key : Key) :
  starknet.Import keyJSON password w = ((key, None), w1) ->
  starknet.Get (ID key) w1 = ((key, None), w1) /\
  starknet.Import keyJSON password w1 = ((zeroKey, Some (AlreadyExists (ID key))), w1).
Proof.
  intros Himp.
  destruct (Import_ok_inv w w1 keyJSON password key Himp) as (_ & Hd & _ & Hr & Hl1).
  assert (Hk : ring w1 !! ID key = Some key) by (rewrite Hr; apply lookup_insert_eq).
  split.
  - rewrite (Get_unlocked w1 _ Hl1). now apply getByID_found.
  - now apply (Import_existing w1 keyJSON password key key).
Qed.

(** X10: Exporting a key does not take it out of the store: when [Export] of an
    identifier has succeeded and the blob decrypts, under the same
    password, to a key with that identifier, importing the blob back into
    the same store fails with the already-exists error and changes
    nothing. *)
Theorem Export_then_Import `{Collaborators} (w w1 : world) (id password : string)
        (blob : bytes) (key : Key) :
  starknet.Export id password w = ((blob, None), w1) ->
  starkkey_FromEncryptedJSON blob password = (key, None) ->
  ID key = id ->
  starknet.Import blob password w1 = ((zeroKey, Some (AlreadyExists id)), w1).
Proof.
  intros Hexp Hdec Hid.
  assert (Hw : locked w1 = false /\ exists k, ring w1 !! id = Some k).
  { revert Hexp. open_store. intros Hexp. cases; eauto. }
  destruct Hw as [Hl1 [k Hk]]. subst id.
  now apply (Import_existing w1 blob password key k).
Qed.

(** X11: [Add], [Import] and [EnsureKey] never remove or replace an entry:
    whatever they return, every key that was in the ring is still there
    under the same identifier. *)
Theorem entries_kept `{Collaborators} (w : world) (id : string) (key : Key) :
  ring w !! id = Some key ->
  (forall k, ring (snd (starknet.Add k w)) !! id = Some key) /\
  (forall keyJSON password,
      ring (snd (starknet.Import keyJSON password w)) !! id = Some key) /\
  ring (snd (starknet.EnsureKey w)) !! id = Some key.
Proof.
  intros Hk. split; [|split].
  - intros k. open_store. cases; try assumption.
    rewrite lookup_insert_ne; [assumption | congruence].
  - intros keyJSON password. open_store. cases; try assumption.
    rewrite lookup_insert_ne; [assumption | congruence].
  - destruct (locked w) eqn:Hl.
    + now rewrite EnsureKey_locked.
    + rewrite EnsureKey_nonempty; [assumption..|].
      destruct (size (ring w)) eqn:Hs; [|lia].
      apply map_size_empty_inv in Hs. rewrite Hs in Hk. now rewrite lookup_empty in Hk.
Qed.

(** ** What the signers do to the store and to the digest *)

Section SignerMore.
Context `{Collaborators}.

Lemma Is_refl (e : error) : Is e e = true.
Proof. destruct e; cbn; now rewrite bool_decide_eq_true_2. Qed.

Lemma Is_Errorf_w (msg : string) (cause target : error) :
  Is cause target = true -> Is (Errorf_w msg cause) target = true.
Proof. intros Hc. cbn. rewrite Hc. apply orb_true_r. Qed.

Lemma SetBytes_list_leading_zeros (n : nat) (h : list byte) :
  big.SetBytes_list (replicate n x00 ++ h) = big.SetBytes_list h.
Proof.
  unfold big.SetBytes_list. rewrite fold_left_app. f_equal.
  induction n as [|n IH]; [reflexivity|]. exact IH.
Qed.


(** The state after the adapter's [Sign] is the state after the wrapped
    signer's [Sign]: decoding has no effect. *)
Lemma adapter_Sign_state (ca : keystoreAdapter.t) (address : string) (hash : Z)
      (w : world) :
  snd (keystoreAdapter.Sign ca address hash w) =
  snd (loop.Sign (keystoreAdapter.looppKs ca) address (big.Bytes hash) w).
Proof.
  unfold keystoreAdapter.Sign. run.
  now destruct (loop.Sign _ _ _ w) as [[raw [e|]] w'].
Qed.

End SignerMore.

(** X12: [Sign] of the store's signer never changes the key manager (ring,
    locked flag, parameters, log), and it invokes the curve primitive at
    most once: either not at all, or exactly once, on an unlocked store
    holding the identifier and a non-nil digest, with the digest read as a
    big-endian integer and the private scalar of the key stored under that
    identifier, and of no other key. *)
Theorem Sign_keeps_store `{Collaborators} (w : world) (id : string) (hash : bytes) :
  km (snd (looppSign id hash w)) = km w /\
  (snd (looppSign id hash w) = w \/
   exists k h, locked w = false /\ ring w !! id = Some k /\ hash = Some h /\
     curveCalls (snd (looppSign id hash w)) =
       curveCalls w ++ [(big.SetBytes_list h, ToPrivKey k)]).
Proof.
  destruct (locked w) eqn:Hl.
  - rewrite (Sign_locked w id hash Hl). auto.
  - destruct (ring w !! id) as [k|] eqn:Hk.
    + destruct hash as [h|].
      * rewrite (Sign_digest w id k h Hl Hk). cbn [snd km curveCalls].
        split; [reflexivity|]. right. exists k, h. auto.
      * rewrite (Sign_nil_found w id k Hl Hk). auto.
    + rewrite (Sign_missing w id hash Hl Hk). auto.
Qed.

(** X13: Leading zero bytes of the digest do not count: [Sign] of a digest and
    of the same digest preceded by any number of zero bytes are the same
    call, with the same result and the same effect (in particular the
    empty non-nil digest is signed as the digest zero is). *)
Theorem Sign_leading_zeros `{Collaborators} (w : world) (id : string)
        (n : nat) (h : list byte) :
  looppSign id (Some (replicate n x00 ++ h)) w = looppSign id (Some h) w.
Proof.
  destruct (locked w) eqn:Hl.
  - now rewrite !Sign_locked.
  - destruct (ring w !! id) as [k|] eqn:Hk.
    + rewrite !(Sign_digest w id k _ Hl Hk). now rewrite SetBytes_list_leading_zeros.
    + now rewrite !Sign_missing.
Qed.


(** X15: Through the adapter the store's signer is never probed: the bytes of
    a digest are never nil, so for every digest, zero included, on an
    unlocked store holding the identifier the curve primitive is invoked
    exactly once, on the absolute value of the digest and the private
    scalar of the key, and the key manager is unchanged. *)
Theorem adapter_always_signs `{Collaborators} (w : world) (id : string) (k : Key)
        (hash : Z) :
  locked w = false ->
  ring w !! id = Some k ->
  snd (keystoreAdapter.Sign (NewStarkNetKeystoreAdapter looppSigner) id hash w) =
    mkWorld (km w) (S (entropy w)) (curveCalls w ++ [(Z.abs hash, ToPrivKey k)]).
Proof.
  intros Hl Hk. rewrite adapter_Sign_state.
  unfold NewStarkNetKeystoreAdapter. cbn [keystoreAdapter.looppKs].
  pose proof (SetBytes_Bytes hash) as Hb. unfold big.SetBytes, big.Bytes in Hb.
  cbn [contents] in Hb. unfold big.Bytes.
  fold (looppSign id (Some (big.FillBytes (big.byteLen hash) (Z.abs hash))) w).
  now rewrite (Sign_digest w id k _ Hl Hk), Hb.
Qed.

(** X16: Errors through both layers.  The adapter over the store's signer
    returns no component and, on a locked store, [ErrLocked] wrapped once;
    on an unlocked store without the identifier, the not-found error
    wrapped once; when the curve primitive fails, its error wrapped twice
    (by the signer, then by the adapter).  In each case the cause is still
    found by [errors.Is]. *)
Theorem adapter_over_signer_errors `{Collaborators} (w : world) (id : string)
        (hash : Z) :
  (locked w = true ->
     keystoreAdapter.Sign (NewStarkNetKeystoreAdapter looppSigner) id hash w =
       (((None, None),
         Some (Errorf_w "error computing loopp keystore signature" ErrLocked)), w)) /\
  (locked w = false -> ring w !! id = None ->
     keystoreAdapter.Sign (NewStarkNetKeystoreAdapter looppSigner) id hash w =
       (((None, None),
         Some (Errorf_w "error computing loopp keystore signature"
                        (KeyNotFoundError id "StarkNet"))), w)) /\
  (forall k xy e, locked w = false -> ring w !! id = Some k ->
     caigo_Curve_Sign (entropy w) (Z.abs hash) (ToPrivKey k) = (xy, Some e) ->
     exists err,
       fst (keystoreAdapter.Sign (NewStarkNetKeystoreAdapter looppSigner) id hash w) =
         ((None, None), Some err) /\
       err = Errorf_w "error computing loopp keystore signature"
                      (Errorf_w "error signing data with curve" e) /\
       Is err e = true).
Proof.
  split; [|split].
  - intros Hl. apply (adapter_Sign_signer_failed _ _ _ _ _ None).
    apply (Sign_locked w id _ Hl).
  - intros Hl Hk. apply (adapter_Sign_signer_failed _ _ _ _ _ None).
    apply (Sign_missing w id _ Hl Hk).
  - intros k [x y] e Hl Hk Hc. eexists. split; [|split; [reflexivity|]].
    + pose proof (SetBytes_Bytes hash) as Hb. unfold big.SetBytes, big.Bytes in Hb.
      cbn [contents] in Hb.
      erewrite adapter_Sign_signer_failed; [reflexivity|].
      unfold NewStarkNetKeystoreAdapter, big.Bytes. cbn [keystoreAdapter.looppKs].
      fold (looppSign id (Some (big.FillBytes (big.byteLen hash) (Z.abs hash))) w).
      rewrite (Sign_digest w id k _ Hl Hk), Hb, Hc. reflexivity.
    + apply Is_Errorf_w, Is_Errorf_w, Is_refl.
Qed.

(** ** Invariants over sequences of calls *)

Section CallFacts.
Context `{Collaborators}.

Lemma after_Sign_km (w : world) (id : string) (hash : bytes) :
  km (snd (looppSign id hash w)) = km w.
Proof.
  destruct (locked w) eqn:Hl.
  - now rewrite (Sign_locked w id hash Hl).
  - destruct (ring w !! id) as [k|] eqn:Hk.
    + destruct hash as [h|].
      * now rewrite (Sign_digest w id k h Hl Hk).
      * now rewrite (Sign_nil_found w id k Hl Hk).
    + now rewrite (Sign_missing w id hash Hl Hk).
Qed.

Lemma after_AdapterSign (w : world) (a : string) (hash : Z) :
  after (CallAdapterSign a hash) w = after (CallSign a (big.Bytes hash)) w.
Proof. cbn [after]. now rewrite adapter_Sign_state. Qed.

(** A call on a locked store changes nothing at all. *)
Lemma after_locked (c : call) (w : world) : locked w = true -> after c w = w.
Proof.
  intros Hl. destruct c; try rewrite after_AdapterSign; cbn [after];
    rewrite ?Get_locked, ?GetAll_locked, ?Create_locked, ?Add_locked, ?Delete_locked,
      ?Import_locked, ?Export_locked, ?EnsureKey_locked, ?Sign_locked by assumption;
    reflexivity.
Qed.

(** No call sets or clears the locked flag or changes the cost
    parameters. *)
Lemma after_flag (c : call) (w : world) :
  locked (after c w) = locked w /\
  scryptParams (km (after c w)) = scryptParams (km w).
Proof.
  destruct c; try rewrite after_AdapterSign; cbn [after];
    try (unfold locked; rewrite after_Sign_km; now split);
    try (cbn; now split);
    open_store; cases; now split.
Qed.

Lemma after_keyed (c : call) (w : world) : keyed (ring w) -> keyed (ring (after c w)).
Proof.
  intros Hr.
  destruct c; try rewrite after_AdapterSign; cbn [after];
    try (unfold ring; now rewrite after_Sign_km);
    try (cbn; assumption);
    open_store; cases; auto using keyed_insert, keyed_delete.
Qed.

(** The calls to the store itself never invoke the curve primitive. *)
Lemma after_store_call (c : call) (w : world) :
  is_store_call c = true -> curveCalls (after c w) = curveCalls w.
Proof.
  intros Hc. destruct c; try discriminate Hc; cbn [after];
    open_store; cases; reflexivity.
Qed.

(** A call never rewrites the log of curve invocations: it appends at most
    one entry. *)
Lemma after_curveCalls (c : call) (w : world) :
  exists l, curveCalls (after c w) = curveCalls w ++ l /\ (length l <= 1)%nat.
Proof.
  destruct (is_store_call c) eqn:Hc.
  - exists []. rewrite (after_store_call c w Hc), app_nil_r. split; [reflexivity|cbn; lia].
  - assert (Hs : forall id hash, exists l,
               curveCalls (snd (looppSign id hash w)) = curveCalls w ++ l /\
               (length l <= 1)%nat).
    { intros id hash. destruct (locked w) eqn:Hl.
      - rewrite (Sign_locked w id hash Hl). exists []. rewrite app_nil_r.
        cbn. split; [reflexivity|lia].
      - destruct (ring w !! id) as [k|] eqn:Hk.
        + destruct hash as [h|].
          * rewrite (Sign_digest w id k h Hl Hk). eexists. split; [reflexivity|cbn; lia].
          * rewrite (Sign_nil_found w id k Hl Hk). exists []. rewrite app_nil_r.
            cbn. split; [reflexivity|lia].
        + rewrite (Sign_missing w id hash Hl Hk). exists []. rewrite app_nil_r.
          cbn. split; [reflexivity|lia]. }
    destruct c; try discriminate Hc; try rewrite after_AdapterSign; cbn [after];
      try apply Hs.
    exists []. rewrite app_nil_r. cbn. split; [reflexivity|lia].
Qed.

End CallFacts.

(** X17: A locked store is frozen: whatever sequence of calls a client makes
    (store operations, signing, through the adapter or not), the state at
    the end is the state at the start; no key is added, removed or used. *)
Theorem locked_store_frozen `{Collaborators} (cs : list call) (w : world) :
  locked w = true -> after_all cs w = w.
Proof.
  intros Hl. unfold after_all. induction cs as [|c cs IH]; [reflexivity|].
  cbn [fold_left]. now rewrite (after_locked c w Hl).
Qed.

(** X18: No sequence of calls locks or unlocks the store, or changes its
    key-derivation cost parameters: both are at the end what they were at
    the start. *)
Theorem flag_never_changes `{Collaborators} (cs : list call) (w : world) :
  locked (after_all cs w) = locked w /\
  scryptParams (km (after_all cs w)) = scryptParams (km w).
Proof.
  unfold after_all. revert w. induction cs as [|c cs IH]; intros w; [now split|].
  cbn [fold_left]. destruct (IH (after c w)) as [-> ->]. apply after_flag.
Qed.

(** X19: The ring stays keyed by identifier: if every key is stored under its
    own identifier at the start (as in an empty ring), so it is after any
    sequence of calls; [Get] of an identifier then never returns a key
    with another identifier. *)
Theorem ring_stays_keyed `{Collaborators} (cs : list call) (w : world) :
  keyed (ring w) ->
  keyed (ring (after_all cs w)) /\
  (forall id key, fst (starknet.Get id (after_all cs w)) = (key, None) -> ID key = id).
Proof.
  intros Hr.
  assert (Hk : keyed (ring (after_all cs w))).
  { unfold after_all. revert w Hr. induction cs as [|c cs IH]; intros w Hr; [assumption|].
    cbn [fold_left]. apply IH. now apply after_keyed. }
  split; [assumption|].
  intros id key. open_store. intros Hget. cases. now apply (Hk id key).
Qed.

(** X20: The log of curve invocations only grows, by at most one entry per
    call, and a sequence of calls to the store alone leaves it as it was:
    no lifecycle operation ever signs. *)
Theorem curve_log_grows `{Collaborators} (cs : list call) (w : world) :
  (exists l, curveCalls (after_all cs w) = curveCalls w ++ l /\
             (length l <= length cs)%nat) /\
  (forallb is_store_call cs = true -> curveCalls (after_all cs w) = curveCalls w).
Proof.
  unfold after_all. revert w. induction cs as [|c cs IH]; intros w.
  - split; [|reflexivity]. exists []. rewrite app_nil_r. cbn. split; [reflexivity|lia].
  - cbn [fold_left forallb]. destruct (IH (after c w)) as [(l & Hl & Hn) Hstore]. split.
    + destruct (after_curveCalls c w) as (l0 & Hl0 & Hn0).
      exists (l0 ++ l). rewrite Hl, Hl0, app_assoc. split; [reflexivity|].
      rewrite length_app. cbn. lia.
    + intros [Hc Hcs]%andb_true_iff. rewrite (Hstore Hcs). now apply after_store_call.
Qed.

(** ** Failures of the lookup, and signing end to end *)

(** X21: [Delete], [Export] and [Sign] look the key up as [Get] does: whenever
    [Get] of an identifier fails, each of them fails with the very same
    error, returns no key and no bytes, and changes nothing. *)
Theorem lookup_failures_agree `{Collaborators} (w : world) (id : string) (e : error) :
  snd (fst (starknet.Get id w)) = Some e ->
  starknet.Delete id w = ((zeroKey, Some e), w) /\
  (forall password, starknet.Export id password w = ((None, Some e), w)) /\
  (forall hash, looppSign id hash w = ((None, Some e), w)).
Proof.
  intros Hget. destruct (locked w) eqn:Hl.
  - rewrite (Get_locked w id Hl) in Hget. injection Hget as <-.
    split; [now apply Delete_locked|]. split; intros.
    + now apply Export_locked.
    + now apply Sign_locked.
  - rewrite (Get_unlocked w id Hl) in Hget.
    destruct (ring w !! id) as [k|] eqn:Hk.
    + now rewrite (getByID_found w id k Hk) in Hget.
    + rewrite (getByID_missing w id Hk) in Hget. injection Hget as <-.
      split; [now apply Delete_missing|]. split; intros.
      * now apply Export_missing.
      * now apply Sign_missing.
Qed.

(** X22: Signing through both layers.  On an unlocked store holding the
    identifier, for every digest, when the curve primitive signs the
    digest's absolute value with the key's private scalar and returns
    [(x, y)]: if both fit the codec's field width the adapter returns
    exactly [(x, y)] without error; if one does not, the adapter returns
    no component and the encoding error wrapped once.  Either way the
    primitive has been invoked once and the key manager is unchanged. *)
Theorem sign_through_both_layers `{Collaborators} (w : world) (id : string) (k : Key)
        (hash x y : Z) :
  locked w = false ->
  ring w !! id = Some k ->
  caigo_Curve_Sign (entropy w) (Z.abs hash) (ToPrivKey k) = ((x, y), None) ->
  (adapters.fits x = true -> adapters.fits y = true ->
     keystoreAdapter.Sign (NewStarkNetKeystoreAdapter looppSigner) id hash w =
       (((Some x, Some y), None),
        mkWorld (km w) (S (entropy w)) (curveCalls w ++ [(Z.abs hash, ToPrivKey k)]))) /\
  (adapters.fits x = false \/ adapters.fits y = false ->
     keystoreAdapter.Sign (NewStarkNetKeystoreAdapter looppSigner) id hash w =
       (((None, None),
         Some (Errorf_w "error computing loopp keystore signature" EncodingError)),
        mkWorld (km w) (S (entropy w)) (curveCalls w ++ [(Z.abs hash, ToPrivKey k)]))).
Proof.
  intros Hl Hk Hc.
  pose proof (SetBytes_Bytes hash) as Hb. unfold big.SetBytes, big.Bytes in Hb.
  cbn [contents] in Hb.
  assert (Hs : loop.Sign
                 (keystoreAdapter.looppKs (NewStarkNetKeystoreAdapter looppSigner))
                 id (big.Bytes hash) w =
               (StarknetLooppSigner.encode x y,
                mkWorld (km w) (S (entropy w))
                        (curveCalls w ++ [(Z.abs hash, ToPrivKey k)]))).
  { unfold NewStarkNetKeystoreAdapter, big.Bytes. cbn [keystoreAdapter.looppKs].
    fold (looppSign id (Some (big.FillBytes (big.byteLen hash) (Z.abs hash))) w).
    now rewrite (Sign_digest w id k _ Hl Hk), Hb, Hc. }
  split.
  - intros Fx Fy.
    pose proof (encode_fits x y Fx Fy) as He.
    pose proof (Decode_encode x y Fx Fy) as Hd.
    rewrite He in Hs, Hd. cbn [fst] in Hd.
    now rewrite (adapter_Sign_signed _ _ _ _ _ _ Hs), Hd.
  - intros Hout. rewrite (encode_out_of_range x y Hout) in Hs.
    now rewrite (adapter_Sign_signer_failed _ _ _ _ _ _ _ Hs).
Qed.

(** ** The further properties at concrete stores *)

(** Closes a premise about a concrete store by evaluation. *)
Ltac by_eval := vm_compute; first [ reflexivity | discriminate ].

Section ConcreteMore.
#[local] Existing Instance Fixture.collaborators.

Lemma keyed_unlocked : keyed (ring Fixture.unlocked).
Proof. apply map_Forall_singleton. reflexivity. Qed.

Lemma Get_outcome_witness :
  fst (starknet.Get "K1" Fixture.unlocked) = (Fixture.K1, None) /\
  (zeroKey = zeroKey /\
   ((locked Fixture.unlocked = true /\ KeyNotFoundError "K2" "StarkNet" = ErrLocked) \/
    (locked Fixture.unlocked = false /\ ring Fixture.unlocked !! "K2" = None /\
     KeyNotFoundError "K2" "StarkNet" = KeyNotFoundError "K2" "StarkNet"))).
Proof.
  split.
  - destruct (Get_outcome Fixture.unlocked "K1") as [Hfound _].
    apply (Hfound Fixture.K1). split; reflexivity.
  - destruct (Get_outcome Fixture.unlocked "K2") as [_ Hfail].
    apply (Hfail zeroKey (KeyNotFoundError "K2" "StarkNet")). by_eval.
Defined.

Lemma GetAll_snapshot_witness :
  exists keys,
    starknet.GetAll Fixture.unlocked = ((keys, None), Fixture.unlocked) /\
    len keys = 1%nat /\
    (Fixture.K1 ∈ contents keys) /\
    NoDup (ID <$> contents keys) /\
    keys <> None.
Proof.
  destruct (GetAll_snapshot Fixture.unlocked eq_refl)
    as (keys & Hall & Hlen & Hin & Hnodup & Hnil).
  exists keys. split; [exact Hall|]. split; [exact Hlen|]. split.
  - apply Hin. exists "K1". reflexivity.
  - split; [exact (Hnodup keyed_unlocked)|].
    intros Hn. apply Hnil in Hn. vm_compute in Hn. discriminate Hn.
Defined.

Lemma Create_outcome_witness :
  (fst (@starknet.Create Fixture.failing Fixture.empty) =
     (zeroKey, Some (ExternalError "entropy source exhausted")) /\
   ring (snd (@starknet.Create Fixture.failing Fixture.empty)) = ring Fixture.empty) /\
  fst (fst (starknet.Create Fixture.empty)) = fst (Fixture.New 0) /\
  ring (snd (starknet.Create Fixture.empty)) =
    <[ "A" := fst (Fixture.New 0) ]> (ring Fixture.empty).
Proof.
  split.
  - destruct (@Create_outcome Fixture.failing Fixture.empty zeroKey eq_refl) as [Hfail _].
    apply Hfail. by_eval.
  - destruct (Create_outcome Fixture.empty (fst (Fixture.New 0)) eq_refl) as [_ Hgen].
    destruct Hgen as (Hkey & Hok & _); [by_eval|].
    split; [exact Hkey|]. apply Hok. by_eval.
Defined.

Lemma Create_replaces_witness :
  ring (snd (starknet.Create Fixture.taken)) !! "A" = Some (fst (Fixture.New 0)) /\
  size (ring (snd (starknet.Create Fixture.taken))) = 1%nat /\
  starknet.Add (fst (Fixture.New 0)) Fixture.taken =
    (Some (AlreadyExists "A"), Fixture.taken).
Proof.
  apply (Create_replaces Fixture.taken (fst (Fixture.New 0)) (mkKey "A" 99 (5, 6)));
    by_eval.
Defined.

Lemma Add_then_Get_witness :
  starknet.Get "K2" (snd (starknet.Add Fixture.K2 Fixture.unlocked)) =
    ((Fixture.K2, None), snd (starknet.Add Fixture.K2 Fixture.unlocked)) /\
  fst (starknet.Get "K1" (snd (starknet.Add Fixture.K2 Fixture.unlocked))) =
    fst (starknet.Get "K1" Fixture.unlocked).
Proof.
  destruct (Add_then_Get Fixture.unlocked (snd (starknet.Add Fixture.K2 Fixture.unlocked))
              Fixture.K2) as [Hnew Hold]; [by_eval|].
  split; [exact Hnew|]. apply Hold. discriminate.
Defined.

Lemma Add_then_Delete_witness :
  Fixture.K2 = Fixture.K2 /\
  ring (snd (starknet.Delete "K2" (snd (starknet.Add Fixture.K2 Fixture.unlocked)))) =
    ring Fixture.unlocked.
Proof.
  apply (Add_then_Delete Fixture.unlocked
           (snd (starknet.Add Fixture.K2 Fixture.unlocked))
           (snd (starknet.Delete "K2" (snd (starknet.Add Fixture.K2 Fixture.unlocked))))
           Fixture.K2 Fixture.K2); by_eval.
Defined.

Lemma Delete_then_Add_witness :
  ring (snd (starknet.Add Fixture.K1 (snd (starknet.Delete "K1" Fixture.unlocked)))) =
    ring Fixture.unlocked.
Proof.
  apply (Delete_then_Add Fixture.unlocked
           (snd (starknet.Delete "K1" Fixture.unlocked))
           (snd (starknet.Add Fixture.K1 (snd (starknet.Delete "K1" Fixture.unlocked))))
           "K1" Fixture.K1); [exact keyed_unlocked | by_eval | by_eval].
Defined.

Lemma Delete_twice_witness :
  starknet.Delete "K1" (snd (starknet.Delete "K1" Fixture.unlocked)) =
    ((zeroKey, Some (KeyNotFoundError "K1" "StarkNet")),
     snd (starknet.Delete "K1" Fixture.unlocked)) /\
  starknet.Get "K1" (snd (starknet.Delete "K1" Fixture.unlocked)) =
    ((zeroKey, Some (KeyNotFoundError "K1" "StarkNet")),
     snd (starknet.Delete "K1" Fixture.unlocked)).
Proof.
  apply (Delete_twice Fixture.unlocked (snd (starknet.Delete "K1" Fixture.unlocked))
           "K1" Fixture.K1); [exact keyed_unlocked | by_eval].
Defined.

Lemma Import_twice_witness :
  starknet.Get "K1" (snd (starknet.Import (Some [x00]) "pw" Fixture.empty)) =
    ((Fixture.K1, None), snd (starknet.Import (Some [x00]) "pw" Fixture.empty)) /\
  starknet.Import (Some [x00]) "pw" (snd (starknet.Import (Some [x00]) "pw" Fixture.empty)) =
    ((zeroKey, Some (AlreadyExists "K1")),
     snd (starknet.Import (Some [x00]) "pw" Fixture.empty)).
Proof.
  apply (Import_twice Fixture.empty (snd (starknet.Import (Some [x00]) "pw" Fixture.empty))
           (Some [x00]) "pw" Fixture.K1); by_eval.
Defined.

Lemma Export_then_Import_witness :
  starknet.Import (fst (fst (starknet.Export "K1" "pw" Fixture.unlocked))) "pw"
                  (snd (starknet.Export "K1" "pw" Fixture.unlocked)) =
    ((zeroKey, Some (AlreadyExists "K1")), snd (starknet.Export "K1" "pw" Fixture.unlocked)).
Proof.
  apply (Export_then_Import Fixture.unlocked
           (snd (starknet.Export "K1" "pw" Fixture.unlocked)) "K1" "pw"
           (fst (fst (starknet.Export "K1" "pw" Fixture.unlocked))) Fixture.K1); by_eval.
Defined.

Lemma entries_kept_witness :
  ring (snd (starknet.Add Fixture.K2 Fixture.unlocked)) !! "K1" = Some Fixture.K1 /\
  ring (snd (starknet.Import (Some [x00]) "pw" Fixture.unlocked)) !! "K1" = Some Fixture.K1 /\
  ring (snd (starknet.EnsureKey Fixture.unlocked)) !! "K1" = Some Fixture.K1.
Proof.
  destruct (entries_kept Fixture.unlocked "K1" Fixture.K1 eq_refl) as (HA & HI & HE).
  split; [apply HA|]. split; [apply HI | exact HE].
Defined.

Lemma adapter_always_signs_witness :
  snd (keystoreAdapter.Sign (NewStarkNetKeystoreAdapter looppSigner) "K1" 0
                            Fixture.unlocked) =
    mkWorld (km Fixture.unlocked) 1 [(0, 7)] /\
  snd (keystoreAdapter.Sign (NewStarkNetKeystoreAdapter looppSigner) "K1" (-5)
                            Fixture.unlocked) =
    mkWorld (km Fixture.unlocked) 1 [(5, 7)].
Proof.
  split.
  - apply (adapter_always_signs Fixture.unlocked "K1" Fixture.K1 0); reflexivity.
  - apply (adapter_always_signs Fixture.unlocked "K1" Fixture.K1 (-5)); reflexivity.
Defined.

Lemma locked_store_frozen_witness :
  after_all [CallCreate; CallAdd Fixture.K2; CallDelete "K1"; CallEnsureKey;
             CallSign "K1" (Some [x05]); CallAdapterSign "K1" 5;
             CallImport (Some [x00]) "pw"; CallExport "K1" "pw"] Fixture.sealed =
    Fixture.sealed.
Proof. apply (locked_store_frozen _ Fixture.sealed). reflexivity. Defined.

Lemma ring_stays_keyed_witness :
  keyed (ring (after_all [CallCreate; CallAdd Fixture.K2; CallDelete "K1";
                          CallImport (Some [x00]) "pw"; CallSign "K2" (Some [x05])]
                         Fixture.unlocked)) /\
  ID Fixture.K2 = "K2".
Proof.
  destruct (ring_stays_keyed
              [CallCreate; CallAdd Fixture.K2; CallDelete "K1";
               CallImport (Some [x00]) "pw"; CallSign "K2" (Some [x05])]
              Fixture.unlocked keyed_unlocked) as [Hk Hget].
  split; [exact Hk|]. apply (Hget "K2" Fixture.K2). by_eval.
Defined.

Lemma curve_log_grows_witness :
  curveCalls (after_all [CallCreate; CallAdd Fixture.K2; CallDelete "K1"; CallGetAll;
                         CallExport "K2" "pw"; CallEnsureKey] Fixture.unlocked) =
    curveCalls Fixture.unlocked.
Proof.
  destruct (curve_log_grows
              [CallCreate; CallAdd Fixture.K2; CallDelete "K1"; CallGetAll;
               CallExport "K2" "pw"; CallEnsureKey] Fixture.unlocked) as [_ Hstore].
  apply Hstore. reflexivity.
Defined.

Lemma lookup_failures_agree_witness :
  starknet.Delete "K2" Fixture.unlocked =
    ((zeroKey, Some (KeyNotFoundError "K2" "StarkNet")), Fixture.unlocked) /\
  starknet.Export "K1" "pw" Fixture.sealed = ((None, Some ErrLocked), Fixture.sealed) /\
  looppSign "K2" (Some [x05]) Fixture.unlocked =
    ((None, Some (KeyNotFoundError "K2" "StarkNet")), Fixture.unlocked).
Proof.
  destruct (lookup_failures_agree Fixture.unlocked "K2" (KeyNotFoundError "K2" "StarkNet"))
    as (HD & _ & HS); [by_eval|].
  destruct (lookup_failures_agree Fixture.sealed "K1" ErrLocked)
    as (_ & HE & _); [by_eval|].
  split; [exact HD|]. split; [apply HE | apply HS].
Defined.

Lemma sign_through_both_layers_witness :
  keystoreAdapter.Sign (NewStarkNetKeystoreAdapter looppSigner) "K1" (-5) Fixture.unlocked =
    (((Some 12, Some 36), None), mkWorld (km Fixture.unlocked) 1 [(5, 7)]).
Proof.
  destruct (sign_through_both_layers Fixture.unlocked "K1" Fixture.K1 (-5) 12 36)
    as [Hfit _]; [by_eval..|].
  apply Hfit; by_eval.
Defined.

End ConcreteMore.

Section FailingMore.
#[local] Existing Instance Fixture.failing.

Lemma adapter_over_signer_errors_witness :
  keystoreAdapter.Sign (NewStarkNetKeystoreAdapter looppSigner) "K1" 5 Fixture.sealed =
    (((None, None),
      Some (Errorf_w "error computing loopp keystore signature" ErrLocked)),
     Fixture.sealed) /\
  keystoreAdapter.Sign (NewStarkNetKeystoreAdapter looppSigner) "K2" 5 Fixture.unlocked =
    (((None, None),
      Some (Errorf_w "error computing loopp keystore signature"
                     (KeyNotFoundError "K2" "StarkNet"))), Fixture.unlocked) /\
  exists err,
    fst (keystoreAdapter.Sign (NewStarkNetKeystoreAdapter looppSigner) "K1" 5
                              Fixture.unlocked) = ((None, None), Some err) /\
    err = Errorf_w "error computing loopp keystore signature"
                   (Errorf_w "error signing data with curve"
                             (ExternalError "invalid private key")) /\
    Is err (ExternalError "invalid private key") = true.
Proof.
  split; [|split].
  - destruct (adapter_over_signer_errors Fixture.sealed "K1" 5) as [Hlocked _].
    apply Hlocked. reflexivity.
  - destruct (adapter_over_signer_errors Fixture.unlocked "K2" 5) as (_ & Hmiss & _).
    apply Hmiss; reflexivity.
  - destruct (adapter_over_signer_errors Fixture.unlocked "K1" 5) as (_ & _ & Hcurve).
    apply (Hcurve Fixture.K1 (0, 0)); reflexivity.
Defined.

End FailingMore.
